(** * Yandex Disk CSV "Append Row" node: a shallow embedding and its properties

    The development follows [src/nodes/YandexDiskCsvAppend.node.ts].

    - [Js]: the fragment of JavaScript the node relies on (strings, values,
      plain objects with their prototype lookup, [String(v)]).
    - [CsvStringify], [CsvParse]: the two calls the node makes into the
      csv-stringify and csv-parse packages, under the options it passes.
    - [Node]: [ensureTrailingNewline] and [execute], the latter in a small
      monad that threads the log of issued HTTP requests and an error.

    Strings are [string]s whose characters stand for code units below 256. *)

From Stdlib Require Import ZArith String Ascii List Bool Lia DecimalString.
Import ListNotations.
Open Scope string_scope.

(* ================================================================== *)
(** ** JavaScript strings, values and objects *)

Module Js.

Definition nl : ascii := "010"%char.
Definition cr : ascii := "013"%char.

(** White space and line terminators as [String.prototype.trim] sees them
    (TAB, LF, VT, FF, CR, SP, NBSP within the modelled range). *)
Definition isWhiteSpace (c : ascii) : bool :=
  let n := nat_of_ascii c in
  ((9 <=? n)%nat && (n <=? 13)%nat) || (n =? 32)%nat || (n =? 160)%nat.

Fixpoint trimStart (s : string) : string :=
  match s with
  | EmptyString => EmptyString
  | String c r => if isWhiteSpace c then trimStart r else s
  end.

Fixpoint trimEnd (s : string) : string :=
  match s with
  | EmptyString => EmptyString
  | String c r =>
      match trimEnd r with
      | EmptyString => if isWhiteSpace c then EmptyString else String c EmptyString
      | r' => String c r'
      end
  end.

(** [s.trim()] *)
Definition trim (s : string) : string := trimEnd (trimStart s).

(** [s.endsWith(c)] for a one-character argument. *)
Fixpoint endsWith (s : string) (c : ascii) : bool :=
  match s with
  | EmptyString => false
  | String x EmptyString => Ascii.eqb x c
  | String _ r => endsWith r c
  end.

(** [s.split(sep)] for a one-character separator; the empty string gives
    one empty piece. *)
Fixpoint split (sep : ascii) (s : string) : list string :=
  match s with
  | EmptyString => [EmptyString]
  | String c r =>
      if Ascii.eqb c sep then EmptyString :: split sep r
      else match split sep r with
           | h :: t => String c h :: t
           | [] => [String c EmptyString]
           end
  end.

(** [s.split(/\r?\n/)[0]]: the text before the leftmost match of the
    pattern, that is before the first LF or CR LF. *)
Fixpoint firstLine (s : string) : string :=
  match s with
  | EmptyString => EmptyString
  | String c r =>
      if Ascii.eqb c nl then EmptyString
      else if Ascii.eqb c cr && prefix (String nl EmptyString) r then EmptyString
      else String c (firstLine r)
  end.

(** [s.indexOf(c) >= 0] for a one-character argument. *)
Fixpoint includes (c : ascii) (s : string) : bool :=
  match s with
  | EmptyString => false
  | String x r => Ascii.eqb x c || includes c r
  end.

(** Truthiness of a string: non-empty. *)
Definition truthy (s : string) : bool :=
  match s with EmptyString => false | _ => true end.

#[local] Set Warnings "-register-all".

(** Values a record field can hold.  [JNum] carries an integer in the safe
    range, which [String] prints in plain decimal; [JFun] is a built-in
    function, known by its name; [JObj] is a plain object, its own
    enumerable properties in [Object.keys] order. *)
Inductive JsValue : Type :=
| JUndefined
| JNull
| JBool (b : bool)
| JNum (z : Z)
| JStr (s : string)
| JFun (name : string)
| JObj (props : list (string * JsValue)).

Definition JsObject : Type := list (string * JsValue).

(** [Object.keys(obj)] *)
Definition Object_keys (obj : JsObject) : list string := map fst obj.

(** Own-property lookup. *)
Fixpoint getOwn (obj : JsObject) (key : string) : option JsValue :=
  match obj with
  | [] => None
  | (k, v) :: rest => if String.eqb k key then Some v else getOwn rest key
  end.

(** The properties every plain object inherits from [Object.prototype]. *)
Definition Object_prototype (key : string) : option JsValue :=
  if String.eqb key "constructor" then Some (JFun "Object")
  else if String.eqb key "__proto__" then Some (JObj [])
  else if existsb (String.eqb key)
            ["hasOwnProperty"; "isPrototypeOf"; "propertyIsEnumerable";
             "toLocaleString"; "toString"; "valueOf";
             "__defineGetter__"; "__defineSetter__";
             "__lookupGetter__"; "__lookupSetter__"]
       then Some (JFun key)
  else None.

(** [obj[key]]: the own property, else the inherited one, else [undefined]. *)
Definition get (obj : JsObject) (key : string) : JsValue :=
  match getOwn obj key with
  | Some v => v
  | None =>
      match Object_prototype key with
      | Some v => v
      | None => JUndefined
      end
  end.

(** [v ?? d] *)
Definition nullish (v d : JsValue) : JsValue :=
  match v with
  | JUndefined | JNull => d
  | _ => v
  end.

(** [String(v)].  A nested plain object prints through the inherited
    [toString].  This is [String(v)] on the values that [stringConvertible]
    admits, see below. *)
Definition toString (v : JsValue) : string :=
  match v with
  | JUndefined => "undefined"
  | JNull => "null"
  | JBool true => "true"
  | JBool false => "false"
  | JNum z => NilZero.string_of_int (Z.to_int z)
  | JStr s => s
  | JFun name => "function " ++ name ++ "() { [native code] }"
  | JObj _ => "[object Object]"
  end.

(** The values on which [String(v)] returns, and returns what [toString]
    says.  A number is an integer of the safe range, below 2^53 in absolute
    value: these print in plain decimal.  An object has no own [toString]
    property: such a property, when it is not a function, makes [String(v)]
    throw a TypeError, as the inherited [valueOf] gives no primitive either.
    The values [get] takes from [Object.prototype] are all admitted. *)
Definition stringConvertible (v : JsValue) : bool :=
  match v with
  | JNum z => (Z.abs z <? 2 ^ 53)%Z
  | JObj props =>
      match getOwn props "toString" with
      | None => true
      | Some _ => false
      end
  | _ => true
  end.

(** [{ ...obj, key: v }]: the copy keeps the order of [obj]; a key already
    there keeps its place and takes the new value, a fresh key goes last. *)
Fixpoint spreadSet (obj : JsObject) (key : string) (v : JsValue) : JsObject :=
  match obj with
  | [] => [(key, v)]
  | (k, w) :: rest =>
      if String.eqb k key then (k, v) :: rest
      else (k, w) :: spreadSet rest key v
  end.

End Js.

(* ================================================================== *)
(** ** Delimiters the node offers *)

Inductive Delimiter : Type := Comma | Semicolon | Tab.

Definition delimiterChar (d : Delimiter) : ascii :=
  match d with
  | Comma => ","%char
  | Semicolon => ";"%char
  | Tab => "009"%char
  end.

(* ================================================================== *)
(** ** csv-stringify/sync: [stringify(rows, { delimiter, record_delimiter: '\n' })]

    The package is a dependency of the node.  The model covers the call the
    node makes: rows of strings, the package's default quote and escape
    character (the double quote), no header and no byte-order mark. *)

Module CsvStringify.

Definition quote : ascii := "034"%char.

(** Every quote is preceded by the escape character, itself a quote. *)
Fixpoint escapeQuotes (s : string) : string :=
  match s with
  | EmptyString => EmptyString
  | String x r =>
      if Ascii.eqb x quote then String quote (String quote (escapeQuotes r))
      else String x (escapeQuotes r)
  end.

(** One field.  The empty value is written bare; any other value is quoted
    when it holds the delimiter, a quote or the record delimiter. *)
Definition stringifyField (d : Delimiter) (value : string) : string :=
  match value with
  | EmptyString => EmptyString
  | _ =>
      let containsDelimiter := Js.includes (delimiterChar d) value in
      let containsQuote := Js.includes quote value in
      let containsRecordDelimiter := Js.includes Js.nl value in
      let shouldQuote := containsQuote || containsDelimiter || containsRecordDelimiter in
      let value := if containsQuote then escapeQuotes value else value in
      if shouldQuote then String quote (value ++ String quote EmptyString) else value
  end.

(** The fields of one record, the delimiter after all but the last. *)
Fixpoint stringifyRecord (d : Delimiter) (record : list string) : string :=
  match record with
  | [] => EmptyString
  | [f] => stringifyField d f
  | f :: rest => stringifyField d f ++ String (delimiterChar d) (stringifyRecord d rest)
  end.

(** Every record is followed by the record delimiter; no record, no text. *)
Fixpoint stringify (d : Delimiter) (records : list (list string)) : string :=
  match records with
  | [] => EmptyString
  | r :: rest => stringifyRecord d r ++ String Js.nl (stringify d rest)
  end.

End CsvStringify.

(* ================================================================== *)
(** ** csv-parse/sync: [parse(text, { delimiter, relax_column_count: true })]

    The package is a dependency of the node.  The model covers the call the
    node makes: the package's default quote and escape character, no
    trimming, no comment, no column names, records of any length, and the
    record delimiter discovered in the text.  The text is read to its end in
    one pass. *)

Module CsvParse.

Inductive CsvError : Type :=
| CSV_INVALID_CLOSING_QUOTE
| INVALID_OPENING_QUOTE
| CSV_QUOTE_NOT_CLOSED.

(** The record delimiter is discovered on the way: Windows first, then
    Unix, then classic Mac. *)
Inductive RecordDelimiter : Type := RdCRLF | RdLF | RdCR.

Record State : Type := mkState {
  quoting : bool;
  wasQuoting : bool;
  escaping : bool;
  record_delimiter : option RecordDelimiter;
  field : string;
  record : list string;
  records : list (list string)
}.

Definition initialState : State :=
  mkState false false false None EmptyString [] [].

Definition quote : ascii := CsvStringify.quote.
Definition isQuote (c : ascii) : bool := Ascii.eqb c quote.

Definition nextChr (rest : string) : option ascii :=
  match rest with
  | EmptyString => None
  | String c _ => Some c
  end.

Definition nextIs (p : ascii -> bool) (rest : string) : bool :=
  match nextChr rest with
  | Some c => p c
  | None => false
  end.

Definition autoDiscoverRecordDelimiter (buf : string) : option RecordDelimiter :=
  match buf with
  | EmptyString => None
  | String c rest =>
      if Ascii.eqb c Js.cr && nextIs (Ascii.eqb Js.nl) rest then Some RdCRLF
      else if Ascii.eqb c Js.nl then Some RdLF
      else if Ascii.eqb c Js.cr then Some RdCR
      else None
  end.

(** Length of the record delimiter that starts [buf], 0 when none does. *)
Definition isRecordDelimiter (rd : option RecordDelimiter) (buf : string) : nat :=
  match rd, buf with
  | Some RdCRLF, String c rest =>
      if Ascii.eqb c Js.cr && nextIs (Ascii.eqb Js.nl) rest then 2 else 0
  | Some RdLF, String c _ => if Ascii.eqb c Js.nl then 1 else 0
  | Some RdCR, String c _ => if Ascii.eqb c Js.cr then 1 else 0
  | _, _ => 0
  end.

Definition discover (st : State) (buf : string) : State :=
  match record_delimiter st with
  | None =>
      mkState (quoting st) (wasQuoting st) (escaping st)
              (autoDiscoverRecordDelimiter buf) (field st) (record st) (records st)
  | Some _ => st
  end.

Definition setQuoting (q wq : bool) (st : State) : State :=
  mkState q wq (escaping st) (record_delimiter st) (field st) (record st) (records st).

Definition setEscaping (e : bool) (st : State) : State :=
  mkState (quoting st) (wasQuoting st) e (record_delimiter st) (field st) (record st) (records st).

Definition appendChr (c : ascii) (st : State) : State :=
  mkState (quoting st) (wasQuoting st) (escaping st) (record_delimiter st)
          (field st ++ String c EmptyString) (record st) (records st).

Definition onField (st : State) : State :=
  mkState (quoting st) false (escaping st) (record_delimiter st)
          EmptyString (record st ++ [field st]) (records st).

Definition onRecord (st : State) : State :=
  mkState (quoting st) (wasQuoting st) (escaping st) (record_delimiter st)
          (field st) [] (records st ++ [record st]).

(** End of input: an open quote is an error; a last line with no character
    is skipped. *)
Definition finish (st : State) : CsvError + list (list string) :=
  if quoting st then inl CSV_QUOTE_NOT_CLOSED
  else if wasQuoting st || negb (Nat.eqb (List.length (record st)) 0)
          || Js.truthy (field st)
       then inr (records (onRecord (onField st)))
  else inr (records st).

(** The character loop of the parser, one iteration per character (two
    when a CR LF record delimiter is consumed). *)
Fixpoint parseLoop (d : Delimiter) (st : State) (buf : string) {struct buf}
  : CsvError + list (list string) :=
  match buf with
  | EmptyString => finish st
  | String chr rest =>
      let st := if quoting st then st else discover st buf in
      if escaping st then
        parseLoop d (appendChr chr (setEscaping false st)) rest
      else if quoting st && isQuote chr && Js.truthy rest && nextIs isQuote rest then
        parseLoop d (setEscaping true st) rest
      else if isQuote chr then
        if quoting st then
          let isNextChrDelimiter := nextIs (Ascii.eqb (delimiterChar d)) rest in
          let st := discover st rest in
          let isNextChrRecordDelimiter :=
            negb (Nat.eqb (isRecordDelimiter (record_delimiter st) rest) 0) in
          let noNextChr :=
            match nextChr rest with
            | None => true
            | Some c => Ascii.eqb c zero
            end in
          if nextIs isQuote rest then
            parseLoop d (appendChr chr st) rest
          else if noNextChr || isNextChrDelimiter || isNextChrRecordDelimiter then
            parseLoop d (setQuoting false true st) rest
          else inl CSV_INVALID_CLOSING_QUOTE
        else
          if Js.truthy (field st) then inl INVALID_OPENING_QUOTE
          else parseLoop d (setQuoting true (wasQuoting st) st) rest
      else if negb (quoting st) then
        match isRecordDelimiter (record_delimiter st) buf with
        | 0 =>
            if Ascii.eqb chr (delimiterChar d) then parseLoop d (onField st) rest
            else parseLoop d (appendChr chr st) rest
        | 1 => parseLoop d (onRecord (onField st)) rest
        | _ =>
            match rest with
            | String _ rest' => parseLoop d (onRecord (onField st)) rest'
            | EmptyString => finish (onRecord (onField st))
            end
        end
      else parseLoop d (appendChr chr st) rest
  end.

Definition parse (text : string) (d : Delimiter) : CsvError + list (list string) :=
  parseLoop d initialState text.

End CsvParse.

(* ================================================================== *)
(** ** The node *)

Module Node.

Import Js.

(** [ensureTrailingNewline] *)
Definition ensureTrailingNewline (s : string) : string :=
  if endsWith s nl then s else s ++ String nl EmptyString.

Inductive MappingMode : Type := byHeader | byColumns.

(** The node parameters, as [getNodeParameter] returns them. *)
Record Params : Type := mkParams {
  filePath : string;
  delimiter : Delimiter;
  encodingParam : string;
  hasHeader : bool;
  mappingMode : MappingMode;
  createIfMissing : bool;
  writeHeaderOnCreate : bool;
  columnsCsv : string
}.

(** [encoding || 'utf-8'] *)
Definition encoding (p : Params) : string :=
  if truthy (encodingParam p) then encodingParam p else "utf-8".

(** [columnsCsv.split(',').map(trim).filter(non-empty)] *)
Definition explicitColumns (p : Params) : list string :=
  filter truthy (map trim (split ","%char (columnsCsv p))).

Record Item : Type := mkItem { json : JsObject }.

(** *** The remote service *)

Record HttpError : Type := mkHttpError {
  statusCode : option Z;
  message : string
}.

Inductive Failure : Type :=
| HttpFailure (err : HttpError)
| CsvFailure (err : CsvParse.CsvError).

(** The four requests [execute] can issue. *)
Inductive Request : Type :=
| GetDownloadLink (path : string)
| GetFile (url : string)
| GetUploadLink (path : string)
| PutFile (url body contentType : string).

(** The body of a download-link response: its [href], when it has one. *)
Record LinkResponse : Type := mkLinkResponse { href : option string }.

(** What the service answers to each request. *)
Record Remote : Type := mkRemote {
  downloadLink : string -> HttpError + LinkResponse;
  fileContent : string -> HttpError + string;
  uploadLink : string -> HttpError + string;
  putFile : string -> string -> string -> HttpError + unit
}.

(** *** Computations: a log of issued requests, and a failure *)

Definition M (A : Type) : Type := list Request -> (Failure + A) * list Request.

Definition ret {A} (a : A) : M A := fun log => (inr a, log).

Definition throw {A} (e : Failure) : M A := fun log => (inl e, log).

Definition bind {A B} (m : M A) (k : A -> M B) : M B :=
  fun log =>
    match m log with
    | (inr a, log') => k a log'
    | (inl e, log') => (inl e, log')
    end.

(** [m.catch(handler)] *)
Definition catch {A} (m : M A) (handler : Failure -> M A) : M A :=
  fun log =>
    match m log with
    | (inl e, log') => handler e log'
    | r => r
    end.

(** [await this.helpers.httpRequest(...)]: the request is issued, then the
    answer is returned or thrown. *)
Definition httpRequest {A} (req : Request) (answer : HttpError + A) : M A :=
  fun log =>
    match answer with
    | inr a => (inr a, (log ++ [req])%list)
    | inl e => (inl (HttpFailure e), (log ++ [req])%list)
    end.

Definition liftCsv {A} (r : CsvParse.CsvError + A) : M A :=
  match r with
  | inr a => ret a
  | inl e => throw (CsvFailure e)
  end.

Notation "x <- m ;; k" := (bind m (fun x => k))
  (at level 61, m at next level, right associativity).

(** *** The steps of [execute] *)

(** [err?.response?.statusCode === 404 && createIfMissing] *)
Definition tolerated (p : Params) (e : Failure) : bool :=
  match e with
  | HttpFailure err =>
      match statusCode err with
      | Some c => Z.eqb c 404 && createIfMissing p
      | None => false
      end
  | CsvFailure _ => false
  end.

(** Step 1: the download link, [null] for a tolerated not-found. *)
Definition resolveDownload (remote : Remote) (p : Params) : M (option LinkResponse) :=
  catch
    (resp <- httpRequest (GetDownloadLink (filePath p)) (downloadLink remote (filePath p)) ;;
     ret (Some resp))
    (fun err => if tolerated p err then ret None else throw err).

(** [dlLinkResp?.body?.href], when truthy. *)
Definition downloadUrl (dlLinkResp : option LinkResponse) : option string :=
  match dlLinkResp with
  | Some resp =>
      match href resp with
      | Some h => if truthy h then Some h else None
      | None => None
      end
  | None => None
  end.

(** [hasHeader && currentCsv.trim().length > 0] *)
Definition headerGuard (p : Params) (currentCsv : string) : bool :=
  hasHeader p && Nat.ltb 0 (String.length (trim currentCsv)).

(** The header of the fetched file: [parsed[0] ?? null] behind the guard. *)
Definition discoverHeader (p : Params) (currentCsv : string)
  : CsvParse.CsvError + option (list string) :=
  if headerGuard p currentCsv then
    match CsvParse.parse (firstLine currentCsv) (delimiter p) with
    | inr parsed => inr (nth_error parsed 0)
    | inl e => inl e
    end
  else inr None.

(** [keys.map((key) => obj[key] ?? '')], then [String(v)] on every value
    that is neither [null] nor [undefined]. *)
Definition cell (obj : JsObject) (key : string) : string :=
  match nullish (get obj key) (JStr EmptyString) with
  | JNull | JUndefined => EmptyString
  | v => toString v
  end.

Definition buildRow (keys : list string) (obj : JsObject) : list string :=
  map (cell obj) keys.

(** The input on which no [String(v)] of the loop throws: every value of
    every record is one that [String] converts. *)
Definition itemsConvertible (items : list Item) : bool :=
  forallb (fun it => forallb (fun kv => stringConvertible (snd kv)) (json it)) items.

(** Step 2: the loop over the items; [headerRow] is assigned on the way. *)
Fixpoint buildRows (p : Params) (headerRow : option (list string))
         (items : list Item) (rows : list (list string))
  : option (list string) * list (list string) :=
  match items with
  | [] => (headerRow, rows)
  | it :: rest =>
      let obj := json it in
      match mappingMode p with
      | byHeader =>
          let headerRow :=
            match headerRow with
            | None => Object_keys obj
            | Some h => h
            end in
          buildRows p (Some headerRow) rest (rows ++ [buildRow headerRow obj])
      | byColumns =>
          buildRows p headerRow rest (rows ++ [buildRow (explicitColumns p) obj])
      end
  end.

(** Steps 3 and 4: the fragment to append, a header row first when the
    file is created. *)
Definition composeCsv (p : Params) (dlLinkResp : option LinkResponse)
           (headerRow : option (list string)) (rows : list (list string)) : string :=
  let appendCsv := CsvStringify.stringify (delimiter p) rows in
  match dlLinkResp with
  | None =>
      if createIfMissing p && (hasHeader p && writeHeaderOnCreate p) then
        let header :=
          match mappingMode p with
          | byHeader => match headerRow with Some h => h | None => [] end
          | byColumns => explicitColumns p
          end in
        CsvStringify.stringify (delimiter p) [header] ++ appendCsv
      else appendCsv
  | Some _ => appendCsv
  end.

(** Step 5 *)
Definition mergeCsv (currentCsv appendCsv : string) : string :=
  if truthy currentCsv && truthy appendCsv then
    ensureTrailingNewline currentCsv ++ appendCsv
  else if negb (truthy currentCsv) then appendCsv
  else currentCsv.

(** [{ filePath }] *)
Definition ydisk (p : Params) : JsValue := JObj [("filePath", JStr (filePath p))].

(** [{ json: { ...it.json, _ydisk: { filePath } } }] *)
Definition outputItem (p : Params) (it : Item) : Item :=
  mkItem (spreadSet (json it) "_ydisk" (ydisk p)).

Definition contentType (p : Params) : string :=
  "text/csv; charset=" ++ encoding p.

(** The block behind [if (dlLinkResp?.body?.href)]: the current content
    and its header; without a download URL both keep their initial value. *)
Definition fetchCurrent (remote : Remote) (p : Params)
           (dlLinkResp : option LinkResponse) : M (string * option (list string)) :=
  match downloadUrl dlLinkResp with
  | Some url =>
      currentCsv <- httpRequest (GetFile url) (fileContent remote url) ;;
      headerRow <- liftCsv (discoverHeader p currentCsv) ;;
      ret (currentCsv, headerRow)
  | None => ret (EmptyString, None)
  end.

(** [execute] *)
Definition execute (remote : Remote) (p : Params) (items : list Item)
  : M (list (list Item)) :=
  dlLinkResp <- resolveDownload remote p ;;
  fetched <- fetchCurrent remote p dlLinkResp ;;
  let '(currentCsv, headerRow) := fetched in
  let '(headerRow, rows) := buildRows p headerRow items [] in
  let appendCsv := composeCsv p dlLinkResp headerRow rows in
  let finalCsv := mergeCsv currentCsv appendCsv in
  uploadUrl <- httpRequest (GetUploadLink (filePath p)) (uploadLink remote (filePath p)) ;;
  _ <- httpRequest (PutFile uploadUrl finalCsv (contentType p))
                   (putFile remote uploadUrl finalCsv (contentType p)) ;;
  ret [map (outputItem p) items].

(** A run starts with an empty log. *)
Definition run {A} (m : M A) : (Failure + A) * list Request := m [].

End Node.

(* ================================================================== *)
(** ** Sample services, parameters and records *)

Import Js Node.

Definition LF : string := String nl EmptyString.

(** The records of the worked examples. *)
Definition record_ab (a b : Z) : Item := mkItem [("a", JNum a); ("b", JNum b)].

(** A service on which the file is absent, and one on which it exists with
    the given content; both hand out an upload link and accept the upload. *)
Definition notFound : HttpError := mkHttpError (Some 404%Z) "Not Found".

Definition absentRemote : Remote :=
  mkRemote (fun _ => inl notFound)
           (fun _ => inl notFound)
           (fun _ => inr "https://uploader.example/put")
           (fun _ _ _ => inr tt).

Definition existingRemote (content : string) : Remote :=
  mkRemote (fun _ => inr (mkLinkResponse (Some "https://downloader.example/get")))
           (fun _ => inr content)
           (fun _ => inr "https://uploader.example/put")
           (fun _ _ _ => inr tt).

(** The node's default parameters. *)
Definition defaultParams : Params :=
  mkParams "disk:/path/to/file.csv" Comma "utf-8" true byHeader true true EmptyString.

(** Variations: creation not allowed; semicolons; explicit columns b,a. *)
Definition noCreateParams : Params :=
  mkParams "disk:/r.csv" Comma "utf-8" true byHeader false true EmptyString.

Definition semicolonParams : Params :=
  mkParams "disk:/r.csv" Semicolon "utf-8" true byHeader true true EmptyString.

Definition columnsParams : Params :=
  mkParams "disk:/r.csv" Comma "utf-8" true byColumns true true "b,a".

(** A file whose first line has a quote inside an unquoted field. *)
Definition malformedCsv : string :=
  "a" ++ String CsvStringify.quote "b,c" ++ LF ++ "1,2" ++ LF.

(** Whether every character of the text is white space. *)
Definition blank (s : string) : bool :=
  forallb isWhiteSpace (list_ascii_of_string s).

(** Header discovery as the specification words it: performed when the
    file exists, its content is non-empty and a header is declared. *)
Definition specDiscoverHeader (p : Params) (fileExists : bool) (currentCsv : string)
  : CsvParse.CsvError + option (list string) :=
  if fileExists && truthy currentCsv && hasHeader p then
    match CsvParse.parse (firstLine currentCsv) (delimiter p) with
    | inr parsed => inr (nth_error parsed 0)
    | inl e => inl e
    end
  else inr None.

(** Steps 2 to 5 of [execute] as one function of what step 1 left: the
    text handed to the upload. *)
Definition finalCsv (p : Params) (dlLinkResp : option LinkResponse)
           (currentCsv : string) (headerRow : option (list string))
           (items : list Item) : string :=
  let '(headerRow, rows) := buildRows p headerRow items [] in
  mergeCsv currentCsv (composeCsv p dlLinkResp headerRow rows).

(** Step 6 and the return of [execute], after the requests in [log]. *)
Definition uploadAndReturn (remote : Remote) (p : Params) (items : list Item)
           (body : string) (log : list Request)
  : (Failure + list (list Item)) * list Request :=
  match uploadLink remote (filePath p) with
  | inl e => (inl (HttpFailure e), (log ++ [GetUploadLink (filePath p)])%list)
  | inr uploadUrl =>
      let log' :=
        (log ++ [GetUploadLink (filePath p);
                 PutFile uploadUrl body (contentType p)])%list in
      match putFile remote uploadUrl body (contentType p) with
      | inl e => (inl (HttpFailure e), log')
      | inr _ => (inr [map (outputItem p) items], log')
      end
  end.

Definition isPutFile (r : Request) : bool :=
  match r with
  | PutFile _ _ _ => true
  | _ => false
  end.

(** More sample services: a server error on the download link; a file that
    cannot be read; a file that cannot be written; a download answer with no
    [href]; an upload that is refused. *)
Definition serverError : HttpError := mkHttpError (Some 500%Z) "Internal Server Error".

Definition brokenRemote : Remote :=
  mkRemote (fun _ => inl serverError)
           (fun _ => inl serverError)
           (fun _ => inr "https://uploader.example/put")
           (fun _ _ _ => inr tt).

Definition unreadableRemote : Remote :=
  mkRemote (fun _ => inr (mkLinkResponse (Some "https://downloader.example/get")))
           (fun _ => inl serverError)
           (fun _ => inr "https://uploader.example/put")
           (fun _ _ _ => inr tt).

Definition readOnlyRemote (content : string) : Remote :=
  mkRemote (fun _ => inr (mkLinkResponse (Some "https://downloader.example/get")))
           (fun _ => inr content)
           (fun _ => inl serverError)
           (fun _ _ _ => inr tt).


Definition refusingRemote (content : string) : Remote :=
  mkRemote (fun _ => inr (mkLinkResponse (Some "https://downloader.example/get")))
           (fun _ => inr content)
           (fun _ => inr "https://uploader.example/put")
           (fun _ _ _ => inl serverError).

(** A text with no line feed and no carriage return. *)
Definition singleLine (f : string) : bool :=
  negb (includes nl f) && negb (includes cr f).

(* ================================================================== *)
(** * Properties *)

(** *** The library calls on small inputs *)

Example stringify_rows :
  CsvStringify.stringify Comma [["a"; "b"]; ["1"; EmptyString]; []] =
    "a,b" ++ LF ++ "1," ++ LF ++ LF.
Proof. reflexivity. Qed.

Example stringify_quotes_delimiter :
  CsvStringify.stringify Semicolon [["x;y"; "z,t"]] =
    String CsvStringify.quote "x;y" ++ String CsvStringify.quote ";z,t" ++ LF.
Proof. reflexivity. Qed.

Example stringify_nothing : CsvStringify.stringify Tab [] = EmptyString.
Proof. reflexivity. Qed.

Example parse_header_line : CsvParse.parse "a,b" Comma = inr [["a"; "b"]].
Proof. reflexivity. Qed.

Example parse_empty_line : CsvParse.parse EmptyString Comma = inr [].
Proof. reflexivity. Qed.

Example parse_quoted_field :
  CsvParse.parse (String CsvParse.quote "x,y" ++ String CsvParse.quote ",z") Comma =
    inr [["x,y"; "z"]].
Proof. reflexivity. Qed.

Example parse_open_quote :
  CsvParse.parse (String CsvParse.quote "x,y") Comma = inl CsvParse.CSV_QUOTE_NOT_CLOSED.
Proof. reflexivity. Qed.

Example firstLine_crlf :
  firstLine ("a,b" ++ String cr LF ++ "1,2") = "a,b".
Proof. reflexivity. Qed.

Example stringConvertible_values :
  stringConvertible (JObj [("filePath", JStr "disk:/r.csv")]) = true
  /\ stringConvertible (JObj [("toString", JNum 1)]) = false
  /\ stringConvertible (JNum (2 ^ 53 - 1)) = true
  /\ stringConvertible (JNum (2 ^ 53)) = false
  /\ itemsConvertible [record_ab 1 2; mkItem [("a", JObj [("toString", JNull)])]]
     = false.
Proof. repeat split. Qed.

Example explicitColumns_trimmed :
  explicitColumns
    (mkParams "disk:/r.csv" Comma "utf-8" true byColumns true true " b , a,,") =
    ["b"; "a"].
Proof. reflexivity. Qed.

Ltac run_execute :=
  unfold run, execute, resolveDownload, fetchCurrent, bind, catch, httpRequest,
    liftCsv, ret, throw.

(** C1. Creating an absent file: the download link answers 404 and creation
    is allowed; with a header wanted, mode byHeader and a comma delimiter, the
    records {a:1,b:2}, {a:3,b:4} are uploaded as the header row from the first
    record's keys followed by one row per record, each ended by a line feed:
    "a,b\n1,2\n3,4\n".  Only the download-link, upload-link and upload
    requests are issued. *)
Theorem create_writes_header_then_rows :
  forall (remote : Remote) (p : Params) (err : HttpError) (uploadUrl : string),
    downloadLink remote (filePath p) = inl err ->
    statusCode err = Some 404%Z ->
    createIfMissing p = true ->
    hasHeader p = true ->
    writeHeaderOnCreate p = true ->
    mappingMode p = byHeader ->
    delimiter p = Comma ->
    uploadLink remote (filePath p) = inr uploadUrl ->
    snd (run (execute remote p [record_ab 1 2; record_ab 3 4])) =
      [GetDownloadLink (filePath p);
       GetUploadLink (filePath p);
       PutFile uploadUrl ("a,b" ++ LF ++ "1,2" ++ LF ++ "3,4" ++ LF) (contentType p)].
Proof.
  intros remote p err uploadUrl Hdl H404 Hc Hh Hw Hm Hd Hup.
  destruct p as [path d enc hh mm cim whc cols]; simpl in *; subst.
  run_execute; simpl. rewrite Hdl. unfold tolerated; simpl. rewrite H404; simpl.
  rewrite Hup; simpl.
  destruct (putFile remote uploadUrl _ _); reflexivity.
Qed.

Lemma create_writes_header_then_rows_witness :
  snd (run (execute absentRemote defaultParams [record_ab 1 2; record_ab 3 4])) =
    [GetDownloadLink "disk:/path/to/file.csv";
     GetUploadLink "disk:/path/to/file.csv";
     PutFile "https://uploader.example/put"
             ("a,b" ++ LF ++ "1,2" ++ LF ++ "3,4" ++ LF) "text/csv; charset=utf-8"].
Proof.
  apply (create_writes_header_then_rows absentRemote defaultParams notFound
           "https://uploader.example/put"); reflexivity.
Defined.

(** C2. Appending to an existing file: the file holds "a,b\nx,y\n", a header
    is declared, mode byHeader, comma delimiter; the record {a:9,b:8} is
    uploaded as "a,b\nx,y\n9,8\n": the row comes after the existing content and
    no second header row is written. *)
Theorem append_to_existing_no_second_header :
  forall (remote : Remote) (p : Params) (url uploadUrl : string),
    downloadLink remote (filePath p) = inr (mkLinkResponse (Some url)) ->
    truthy url = true ->
    fileContent remote url = inr ("a,b" ++ LF ++ "x,y" ++ LF) ->
    hasHeader p = true ->
    mappingMode p = byHeader ->
    delimiter p = Comma ->
    uploadLink remote (filePath p) = inr uploadUrl ->
    snd (run (execute remote p [record_ab 9 8])) =
      [GetDownloadLink (filePath p);
       GetFile url;
       GetUploadLink (filePath p);
       PutFile uploadUrl ("a,b" ++ LF ++ "x,y" ++ LF ++ "9,8" ++ LF) (contentType p)].
Proof.
  intros remote p url uploadUrl Hdl Hurl Hfile Hh Hm Hd Hup.
  destruct p as [path d enc hh mm cim whc cols]; simpl in *; subst.
  run_execute; simpl. rewrite Hdl; simpl. rewrite Hurl, Hfile; simpl.
  rewrite Hup; simpl.
  destruct (putFile remote uploadUrl _ _); reflexivity.
Qed.

Lemma append_to_existing_no_second_header_witness :
  snd (run (execute (existingRemote ("a,b" ++ LF ++ "x,y" ++ LF)) defaultParams
                    [record_ab 9 8])) =
    [GetDownloadLink "disk:/path/to/file.csv";
     GetFile "https://downloader.example/get";
     GetUploadLink "disk:/path/to/file.csv";
     PutFile "https://uploader.example/put"
             ("a,b" ++ LF ++ "x,y" ++ LF ++ "9,8" ++ LF) "text/csv; charset=utf-8"].
Proof.
  apply (append_to_existing_no_second_header
           (existingRemote ("a,b" ++ LF ++ "x,y" ++ LF)) defaultParams
           "https://downloader.example/get" "https://uploader.example/put");
    reflexivity.
Defined.

(** [endsWith] says what it should: the string is some text followed by the
    character. *)
Lemma endsWith_true_iff (s : string) (c : ascii) :
  endsWith s c = true <-> exists s', s = s' ++ String c EmptyString.
Proof.
  induction s as [|x r IH]; simpl.
  - split; [discriminate|]. intros [s' H]. destruct s'; discriminate.
  - destruct r as [|y r'].
    + rewrite Ascii.eqb_eq. split.
      * intros ->. exists EmptyString. reflexivity.
      * intros [s' H]. destruct s' as [|z s'']; simpl in H.
        -- now injection H.
        -- injection H as _ H. destruct s''; discriminate.
    + rewrite IH. split.
      * intros [s' H]. exists (String x s'). simpl. now rewrite H.
      * intros [s' H]. destruct s' as [|z s'']; simpl in H.
        -- discriminate.
        -- injection H as _ H. now exists s''.
Qed.

Lemma string_append_assoc (a b c : string) : (a ++ b) ++ c = a ++ (b ++ c).
Proof. induction a as [|x a IH]; simpl; [reflexivity | now rewrite IH]. Qed.

Lemma truthy_true (s : string) : s <> EmptyString -> truthy s = true.
Proof. destruct s; [congruence | reflexivity]. Qed.

Lemma ensureTrailingNewline_idempotent (s : string) :
  ensureTrailingNewline (ensureTrailingNewline s) = ensureTrailingNewline s.
Proof.
  unfold ensureTrailingNewline at 2 3.
  destruct (endsWith s nl) eqn:E.
  - unfold ensureTrailingNewline. now rewrite E.
  - unfold ensureTrailingNewline.
    assert (H : endsWith (s ++ String nl EmptyString) nl = true)
      by (apply endsWith_true_iff; now exists s).
    now rewrite H.
Qed.

(** C3. Merging non-empty existing content C with a non-empty fragment A
    gives [ensureTrailingNewline C ++ A]: C, a line feed, then A when C does
    not end in a line feed, and C then A, with no second line feed, when it
    does; ensuring the line feed twice changes nothing.  Empty existing
    content is replaced by the fragment. *)
Theorem merge_ensures_one_newline :
  forall C A : string,
    C <> EmptyString ->
    A <> EmptyString ->
    mergeCsv C A = ensureTrailingNewline C ++ A
    /\ ((forall C', C <> C' ++ LF) -> mergeCsv C A = C ++ LF ++ A)
    /\ (forall C', C = C' ++ LF -> mergeCsv C A = C' ++ LF ++ A)
    /\ ensureTrailingNewline (ensureTrailingNewline C) = ensureTrailingNewline C
    /\ (forall A', mergeCsv EmptyString A' = A').
Proof.
  intros C A HC HA.
  assert (Hm : mergeCsv C A = ensureTrailingNewline C ++ A).
  { unfold mergeCsv. now rewrite (truthy_true C HC), (truthy_true A HA). }
  split; [|split; [|split; [|split]]].
  - exact Hm.
  - intros Hno. rewrite Hm. unfold ensureTrailingNewline.
    destruct (endsWith C nl) eqn:E.
    + apply endsWith_true_iff in E. destruct E as [C' E]. now destruct (Hno C').
    + unfold LF. now rewrite string_append_assoc.
  - intros C' HC'. rewrite Hm. unfold ensureTrailingNewline.
    assert (E : endsWith C nl = true) by (apply endsWith_true_iff; now exists C').
    rewrite E, HC'. unfold LF. now rewrite string_append_assoc.
  - apply ensureTrailingNewline_idempotent.
  - intros A'. reflexivity.
Qed.

Lemma merge_ensures_one_newline_witness :
  "a,b" <> EmptyString /\ "1,2" <> EmptyString
  /\ mergeCsv "a,b" "1,2" = "a,b" ++ LF ++ "1,2"
  /\ mergeCsv ("a,b" ++ LF) "1,2" = "a,b" ++ LF ++ "1,2".
Proof.
  destruct (merge_ensures_one_newline "a,b" "1,2") as (H1 & _);
    [discriminate | discriminate |].
  destruct (merge_ensures_one_newline ("a,b" ++ LF) "1,2") as (_ & _ & H3 & _);
    [discriminate | discriminate |].
  split; [discriminate | split; [discriminate | split]].
  - exact H1.
  - exact (H3 "a,b" eq_refl).
Defined.

(** C4. When the download link answers 404 and creation is not allowed, the
    invocation fails with that very error, and the only request issued is the
    one for the download link: no upload link is asked for and nothing is
    uploaded. *)
Theorem not_found_without_create_aborts :
  forall (remote : Remote) (p : Params) (items : list Item) (err : HttpError),
    downloadLink remote (filePath p) = inl err ->
    statusCode err = Some 404%Z ->
    createIfMissing p = false ->
    run (execute remote p items) =
      (inl (HttpFailure err), [GetDownloadLink (filePath p)]).
Proof.
  intros remote p items err Hdl H404 Hc.
  run_execute. rewrite Hdl. unfold tolerated. rewrite H404, Hc. reflexivity.
Qed.

Lemma not_found_without_create_aborts_witness :
  run (execute absentRemote
         noCreateParams
         [record_ab 1 2]) =
    (inl (HttpFailure notFound), [GetDownloadLink "disk:/r.csv"]).
Proof.
  apply (not_found_without_create_aborts absentRemote
           noCreateParams
           [record_ab 1 2] notFound); reflexivity.
Defined.

(** The loop of step 2 in either mode, its header once known. *)
Lemma buildRows_byHeader_known (p : Params) (h : list string) (items : list Item) :
  mappingMode p = byHeader ->
  forall rows,
    buildRows p (Some h) items rows =
      (Some h, (rows ++ map (fun it => buildRow h (json it)) items)%list).
Proof.
  intros Hm. induction items as [|it rest IH]; intros rows; simpl.
  - now rewrite app_nil_r.
  - rewrite Hm, IH, <- app_assoc. reflexivity.
Qed.

Lemma buildRows_byColumns (p : Params) (items : list Item) :
  mappingMode p = byColumns ->
  forall headerRow rows,
    buildRows p headerRow items rows =
      (headerRow,
       (rows ++ map (fun it => buildRow (explicitColumns p) (json it)) items)%list).
Proof.
  intros Hm. induction items as [|it rest IH]; intros headerRow rows; simpl.
  - now rewrite app_nil_r.
  - rewrite Hm, IH, <- app_assoc. reflexivity.
Qed.

Lemma buildRows_byHeader_unknown (p : Params) (first : Item) (rest : list Item) :
  mappingMode p = byHeader ->
  buildRows p None (first :: rest) [] =
    (Some (Object_keys (json first)),
     map (fun it => buildRow (Object_keys (json first)) (json it)) (first :: rest)).
Proof.
  intros Hm. simpl. rewrite Hm. now rewrite buildRows_byHeader_known.
Qed.

Lemma mergeCsv_empty_l (A : string) : mergeCsv EmptyString A = A.
Proof. reflexivity. Qed.

(** C5. Mode byHeader with no header known when the mapping starts, on
    records whose values [String] converts (so that the loop runs through): the
    header is the key list of the first record, and the row of every record
    of the invocation is built from that one list, never from a later
    record's keys.  So on an absent file (404, creation allowed) the upload
    is the optional header row and the rows, all in the first record's
    layout; on an existing file whose header was not discovered, the rows
    merged into the content are in that layout too. *)
Theorem header_derived_once_from_first_record :
  forall (p : Params) (first : Item) (rest : list Item),
    mappingMode p = byHeader ->
    itemsConvertible (first :: rest) = true ->
    buildRows p None (first :: rest) [] =
      (Some (Object_keys (json first)),
       map (fun it => buildRow (Object_keys (json first)) (json it)) (first :: rest))
    /\ (forall remote err uploadUrl,
          downloadLink remote (filePath p) = inl err ->
          statusCode err = Some 404%Z ->
          createIfMissing p = true ->
          uploadLink remote (filePath p) = inr uploadUrl ->
          snd (run (execute remote p (first :: rest))) =
            [GetDownloadLink (filePath p);
             GetUploadLink (filePath p);
             PutFile uploadUrl
               ((if hasHeader p && writeHeaderOnCreate p
                 then CsvStringify.stringify (delimiter p) [Object_keys (json first)]
                 else EmptyString)
                ++ CsvStringify.stringify (delimiter p)
                     (map (fun it => buildRow (Object_keys (json first)) (json it))
                          (first :: rest)))
               (contentType p)])
    /\ (forall remote resp url currentCsv uploadUrl,
          downloadLink remote (filePath p) = inr resp ->
          downloadUrl (Some resp) = Some url ->
          fileContent remote url = inr currentCsv ->
          discoverHeader p currentCsv = inr None ->
          uploadLink remote (filePath p) = inr uploadUrl ->
          snd (run (execute remote p (first :: rest))) =
            [GetDownloadLink (filePath p);
             GetFile url;
             GetUploadLink (filePath p);
             PutFile uploadUrl
               (mergeCsv currentCsv
                  (CsvStringify.stringify (delimiter p)
                     (map (fun it => buildRow (Object_keys (json first)) (json it))
                          (first :: rest))))
               (contentType p)]).
Proof.
  intros p first rest Hm _. split; [|split].
  - now apply buildRows_byHeader_unknown.
  - intros remote err uploadUrl Hdl H404 Hc Hup.
    run_execute. rewrite Hdl. unfold tolerated. rewrite H404, Hc.
    cbn [Z.eqb Pos.eqb andb downloadUrl].
    rewrite (buildRows_byHeader_unknown p first rest Hm).
    unfold composeCsv. rewrite Hc, Hm, Hup. cbn [andb].
    destruct (hasHeader p && writeHeaderOnCreate p);
      destruct (putFile remote uploadUrl _ _); reflexivity.
  - intros remote resp url currentCsv uploadUrl Hdl Hurl Hfile Hdisc Hup.
    run_execute. rewrite Hdl. cbn [app]. rewrite Hurl, Hfile, Hdisc.
    rewrite (buildRows_byHeader_unknown p first rest Hm).
    unfold composeCsv. rewrite Hup.
    destruct (putFile remote uploadUrl _ _); reflexivity.
Qed.

Lemma header_derived_once_from_first_record_witness :
  buildRows defaultParams None
    [record_ab 1 2; mkItem [("b", JNum 4); ("c", JNum 5)]] [] =
    (Some ["a"; "b"], [["1"; "2"]; [EmptyString; "4"]])
  /\ snd (run (execute absentRemote defaultParams
                 [record_ab 1 2; mkItem [("b", JNum 4); ("c", JNum 5)]])) =
       [GetDownloadLink "disk:/path/to/file.csv";
        GetUploadLink "disk:/path/to/file.csv";
        PutFile "https://uploader.example/put"
                ("a,b" ++ LF ++ "1,2" ++ LF ++ ",4" ++ LF) "text/csv; charset=utf-8"]
  /\ snd (run (execute (existingRemote LF) defaultParams
                 [record_ab 1 2; mkItem [("b", JNum 4); ("c", JNum 5)]])) =
       [GetDownloadLink "disk:/path/to/file.csv";
        GetFile "https://downloader.example/get";
        GetUploadLink "disk:/path/to/file.csv";
        PutFile "https://uploader.example/put"
                (LF ++ "1,2" ++ LF ++ ",4" ++ LF) "text/csv; charset=utf-8"].
Proof.
  destruct (header_derived_once_from_first_record defaultParams
              (record_ab 1 2) [mkItem [("b", JNum 4); ("c", JNum 5)]]
              eq_refl eq_refl)
    as (H1 & H2 & H3).
  split; [exact H1 | split].
  - exact (H2 absentRemote notFound "https://uploader.example/put"
              eq_refl eq_refl eq_refl eq_refl).
  - exact (H3 (existingRemote LF)
              (mkLinkResponse (Some "https://downloader.example/get"))
              "https://downloader.example/get" LF "https://uploader.example/put"
              eq_refl eq_refl eq_refl eq_refl eq_refl).
Defined.

Lemma buildRow_own_lookup (keys : list string) (obj1 obj2 : JsObject) :
  (forall key, getOwn obj1 key = getOwn obj2 key) ->
  buildRow keys obj1 = buildRow keys obj2.
Proof.
  intros H. unfold buildRow. apply map_ext. intros key.
  unfold cell, get. now rewrite H.
Qed.

(** C6. Mode byColumns: the row of every record lists the values of the
    configured columns in the configured order, whatever header was found in
    the file and whatever the order of the record's own keys (two records
    with the same fields give the same row).  With the list b,a the record
    {a:1,b:2} gives the row 2,1, written "2,1\n". *)
Theorem explicit_columns_fix_row_order :
  forall (p : Params),
    mappingMode p = byColumns ->
    (forall headerRow items,
       snd (buildRows p headerRow items []) =
         map (fun it => buildRow (explicitColumns p) (json it)) items)
    /\ (forall obj1 obj2,
          (forall key, getOwn obj1 key = getOwn obj2 key) ->
          buildRow (explicitColumns p) obj1 = buildRow (explicitColumns p) obj2)
    /\ (columnsCsv p = "b,a" ->
        forall headerRow,
          snd (buildRows p headerRow [record_ab 1 2] []) = [["2"; "1"]]
          /\ snd (buildRows p headerRow [mkItem [("b", JNum 2); ("a", JNum 1)]] [])
             = [["2"; "1"]]
          /\ CsvStringify.stringify Comma [["2"; "1"]] = "2,1" ++ LF).
Proof.
  intros p Hm. split; [|split].
  - intros headerRow items. now rewrite buildRows_byColumns.
  - intros obj1 obj2. apply buildRow_own_lookup.
  - intros Hcols headerRow. rewrite !buildRows_byColumns by assumption.
    unfold explicitColumns. rewrite Hcols. repeat split.
Qed.

Lemma explicit_columns_fix_row_order_witness :
  snd (buildRows columnsParams
                 (Some ["a"; "b"]) [record_ab 1 2] []) = [["2"; "1"]].
Proof.
  destruct (explicit_columns_fix_row_order
              columnsParams
              eq_refl) as (_ & _ & H).
  exact (proj1 (H eq_refl (Some ["a"; "b"]))).
Defined.

(** A key the record lacks, or holds as [null] or [undefined], gives the
    empty cell, provided [Object.prototype] has no property of that name. *)
Lemma missing_key_gives_empty_cell (obj : JsObject) (key : string) :
  Object_prototype key = None ->
  getOwn obj key = None \/ getOwn obj key = Some JNull
  \/ getOwn obj key = Some JUndefined ->
  cell obj key = EmptyString.
Proof.
  intros Hp [H | [H | H]]; unfold cell, get; rewrite H; try rewrite Hp; reflexivity.
Qed.

(** An own [null] gives the empty cell under any name. *)
Lemma null_value_gives_empty_cell (obj : JsObject) (key : string) :
  getOwn obj key = Some JNull -> cell obj key = EmptyString.
Proof. intros H. unfold cell, get. now rewrite H. Qed.

(** Header a,b and record {a:1}: the row is "1,". *)
Lemma missing_b_example :
  buildRow ["a"; "b"] [("a", JNum 1)] = ["1"; EmptyString]
  /\ CsvStringify.stringify Comma [buildRow ["a"; "b"] [("a", JNum 1)]] = "1," ++ LF.
Proof. split; reflexivity. Qed.

(** C7, at an input where the code departs from it.  The file's header is
    a,constructor and the record is {a:1}: the record has no key
    "constructor", yet [obj[key]] finds the function every object inherits,
    [?? ''] lets it through and [String] prints it; the cell is not empty. *)
Theorem inherited_name_fills_missing_cell :
  getOwn [("a", JNum 1)] "constructor" = None
  /\ buildRow ["a"; "constructor"] [("a", JNum 1)] =
       ["1"; "function Object() { [native code] }"]
  /\ snd (run (execute (existingRemote ("a,constructor" ++ LF)) defaultParams
                [mkItem [("a", JNum 1)]])) =
       [GetDownloadLink "disk:/path/to/file.csv";
        GetFile "https://downloader.example/get";
        GetUploadLink "disk:/path/to/file.csv";
        PutFile "https://uploader.example/put"
                ("a,constructor" ++ LF ++ "1,function Object() { [native code] }" ++ LF)
                "text/csv; charset=utf-8"].
Proof. repeat split. Qed.

(** *** Trimming and the first line *)

Lemma trimEnd_empty_iff (s : string) :
  trimEnd s = EmptyString <-> blank s = true.
Proof.
  unfold blank. induction s as [|c r IH]; simpl.
  - tauto.
  - destruct (trimEnd r) eqn:E.
    + destruct (isWhiteSpace c); simpl.
      * rewrite <- IH. tauto.
      * split; discriminate.
    + split; [discriminate|]. intros H. apply andb_true_iff in H.
      destruct H as [_ H]. apply IH in H. discriminate.
Qed.

Lemma blank_trimStart (s : string) : blank (trimStart s) = blank s.
Proof.
  unfold blank. induction s as [|c r IH]; simpl; [reflexivity|].
  destruct (isWhiteSpace c) eqn:E; simpl; [exact IH | now rewrite E].
Qed.

Lemma trim_empty_iff (s : string) : trim s = EmptyString <-> blank s = true.
Proof. unfold trim. now rewrite trimEnd_empty_iff, blank_trimStart. Qed.

Lemma headerGuard_blank (p : Params) (currentCsv : string) :
  headerGuard p currentCsv = hasHeader p && negb (blank currentCsv).
Proof.
  unfold headerGuard. f_equal.
  destruct (blank currentCsv) eqn:E.
  - apply trim_empty_iff in E. now rewrite E.
  - destruct (trim currentCsv) eqn:T; [|reflexivity].
    apply trim_empty_iff in T. congruence.
Qed.

Lemma firstLine_no_line_feed (s : string) : includes nl (firstLine s) = false.
Proof.
  induction s as [|c r IH]; simpl; [reflexivity|].
  destruct (Ascii.eqb c nl) eqn:E1; [reflexivity|].
  destruct (Ascii.eqb c cr && prefix (String nl EmptyString) r); [reflexivity|].
  simpl. now rewrite E1.
Qed.

Lemma prefix_cons (a : ascii) (s1 s2 : string) :
  prefix (String a s1) (String a s2) = prefix s1 s2.
Proof. simpl. destruct (ascii_dec a a); [reflexivity | congruence]. Qed.

(** The first line is the text before the first LF, without the CR that
    may precede that LF. *)
Lemma firstLine_split (s : string) :
  exists rest,
    s = firstLine s ++ rest
    /\ (rest = EmptyString
        \/ (prefix LF rest = true /\ endsWith (firstLine s) cr = false)
        \/ prefix (String cr LF) rest = true).
Proof.
  induction s as [|c r IH]; simpl.
  - exists EmptyString. auto.
  - destruct (Ascii.eqb c nl) eqn:E1.
    + apply Ascii.eqb_eq in E1. subst c. exists (String nl r). split; [reflexivity|].
      right. left. split; [|reflexivity].
      unfold LF. rewrite prefix_cons. now destruct r.
    + destruct (Ascii.eqb c cr && prefix (String nl EmptyString) r) eqn:E2.
      * apply andb_true_iff in E2. destruct E2 as [Ec Ep].
        apply Ascii.eqb_eq in Ec. subst c. exists (String cr r).
        split; [reflexivity|]. right. right. now rewrite prefix_cons.
      * destruct IH as (rest & Hs & Hrest). exists rest. split.
        -- simpl. now rewrite <- Hs.
        -- destruct Hrest as [H | [[H1 H2] | H]]; auto.
           right. left. split; [exact H1|].
           destruct (firstLine r) eqn:F.
           ++ simpl in Hs. subst rest. unfold LF in H1. rewrite H1 in E2.
              now rewrite andb_true_r in E2.
           ++ exact H2.
Qed.

(** C8 as worded fails on a file that holds one space: the file exists, its
    content is not empty and a header is declared, so the specification has
    the first line parsed, which gives the header [" "]; the code, whose
    guard looks at the trimmed content, leaves the header unknown, and the
    record {a:1} is appended under its own key instead of as an empty cell. *)
Lemma blank_content_header_not_discovered :
  truthy " " = true
  /\ hasHeader defaultParams = true
  /\ specDiscoverHeader defaultParams true " " = inr (Some [" "])
  /\ discoverHeader defaultParams " " = inr None
  /\ fetchCurrent (existingRemote " ") defaultParams
       (Some (mkLinkResponse (Some "https://downloader.example/get"))) [] =
       (inr (" ", None), [GetFile "https://downloader.example/get"])
  /\ snd (run (execute (existingRemote " ") defaultParams [mkItem [("a", JNum 1)]])) =
       [GetDownloadLink "disk:/path/to/file.csv";
        GetFile "https://downloader.example/get";
        GetUploadLink "disk:/path/to/file.csv";
        PutFile "https://uploader.example/put" (" " ++ LF ++ "1" ++ LF)
                "text/csv; charset=utf-8"].
Proof. repeat split. Qed.

(** C8, amended.  The header is discovered exactly when there is a download
    URL (the file exists), a header is declared and the content has a
    character that is not white space.  Then the first line of the content,
    the text before the first LF or CR LF, is parsed with the configured
    delimiter and its first record is the header; a first line that does not
    parse fails the invocation with the parser's error, after the download
    and before any upload request.  Otherwise nothing is parsed and the
    header stays unknown. *)
Theorem header_discovery_guarded_by_trimmed_content :
  forall (remote : Remote) (p : Params),
    (forall currentCsv,
       headerGuard p currentCsv = true <->
       hasHeader p = true /\ blank currentCsv = false)
    /\ (forall dlLinkResp log,
          downloadUrl dlLinkResp = None ->
          fetchCurrent remote p dlLinkResp log = (inr (EmptyString, None), log))
    /\ (forall dlLinkResp log url currentCsv,
          downloadUrl dlLinkResp = Some url ->
          fileContent remote url = inr currentCsv ->
          fetchCurrent remote p dlLinkResp log =
            (if headerGuard p currentCsv then
               match CsvParse.parse (firstLine currentCsv) (delimiter p) with
               | inr parsed => inr (currentCsv, nth_error parsed 0)
               | inl e => inl (CsvFailure e)
               end
             else inr (currentCsv, None),
             (log ++ [GetFile url])%list))
    /\ (forall currentCsv,
          includes nl (firstLine currentCsv) = false
          /\ exists rest,
               currentCsv = firstLine currentCsv ++ rest
               /\ (rest = EmptyString
                   \/ (prefix LF rest = true /\ endsWith (firstLine currentCsv) cr = false)
                   \/ prefix (String cr LF) rest = true))
    /\ (forall items resp url currentCsv e,
          downloadLink remote (filePath p) = inr resp ->
          downloadUrl (Some resp) = Some url ->
          fileContent remote url = inr currentCsv ->
          headerGuard p currentCsv = true ->
          CsvParse.parse (firstLine currentCsv) (delimiter p) = inl e ->
          run (execute remote p items) =
            (inl (CsvFailure e), [GetDownloadLink (filePath p); GetFile url])).
Proof.
  intros remote p. split; [|split; [|split; [|split]]].
  - intros currentCsv. rewrite headerGuard_blank, andb_true_iff, negb_true_iff.
    tauto.
  - intros dlLinkResp log H. unfold fetchCurrent. now rewrite H.
  - intros dlLinkResp log url currentCsv Hurl Hfile.
    unfold fetchCurrent, bind, httpRequest, liftCsv, discoverHeader, ret, throw.
    rewrite Hurl, Hfile.
    destruct (headerGuard p currentCsv); [|reflexivity].
    destruct (CsvParse.parse _ _); reflexivity.
  - intros currentCsv. split; [apply firstLine_no_line_feed | apply firstLine_split].
  - intros items resp url currentCsv e Hdl Hurl Hfile Hg Hparse.
    run_execute. rewrite Hdl. cbn [app]. rewrite Hurl, Hfile.
    unfold discoverHeader. rewrite Hg, Hparse. reflexivity.
Qed.

Lemma header_discovery_guarded_by_trimmed_content_witness :
  headerGuard defaultParams malformedCsv = true
  /\ run (execute (existingRemote malformedCsv) defaultParams
            [record_ab 1 2]) =
       (inl (CsvFailure CsvParse.INVALID_OPENING_QUOTE),
        [GetDownloadLink "disk:/path/to/file.csv";
         GetFile "https://downloader.example/get"])
  /\ fetchCurrent (existingRemote ("a;b" ++ LF ++ "1;2" ++ LF))
       semicolonParams
       (Some (mkLinkResponse (Some "https://downloader.example/get"))) [] =
       (inr ("a;b" ++ LF ++ "1;2" ++ LF, Some ["a"; "b"]),
        [GetFile "https://downloader.example/get"]).
Proof.
  destruct (header_discovery_guarded_by_trimmed_content
              (existingRemote malformedCsv) defaultParams)
    as (H1 & _ & _ & _ & H5).
  destruct (header_discovery_guarded_by_trimmed_content
              (existingRemote ("a;b" ++ LF ++ "1;2" ++ LF))
              semicolonParams)
    as (_ & _ & H3 & _).
  split; [|split].
  - apply H1. split; reflexivity.
  - exact (H5 [record_ab 1 2]
              (mkLinkResponse (Some "https://downloader.example/get"))
              "https://downloader.example/get" _ CsvParse.INVALID_OPENING_QUOTE
              eq_refl eq_refl eq_refl eq_refl eq_refl).
  - exact (H3 (Some (mkLinkResponse (Some "https://downloader.example/get"))) []
              "https://downloader.example/get" _ eq_refl eq_refl).
Defined.

(** *** The output items *)

Lemma getOwn_spreadSet_same (obj : JsObject) (key : string) (v : JsValue) :
  getOwn (spreadSet obj key v) key = Some v.
Proof.
  induction obj as [|[k w] rest IH]; simpl.
  - now rewrite String.eqb_refl.
  - destruct (String.eqb k key) eqn:E; simpl; rewrite E; [reflexivity | exact IH].
Qed.

Lemma getOwn_spreadSet_other (obj : JsObject) (key key' : string) (v : JsValue) :
  key' <> key ->
  getOwn (spreadSet obj key v) key' = getOwn obj key'.
Proof.
  intros Hne. induction obj as [|[k w] rest IH]; simpl.
  - apply not_eq_sym, String.eqb_neq in Hne. now rewrite Hne.
  - destruct (String.eqb k key) eqn:E; simpl.
    + apply String.eqb_eq in E. subst k.
      apply not_eq_sym, String.eqb_neq in Hne. now rewrite Hne.
    + now rewrite IH.
Qed.

Lemma spreadSet_fresh (obj : JsObject) (key : string) (v : JsValue) :
  getOwn obj key = None ->
  spreadSet obj key v = (obj ++ [(key, v)])%list.
Proof.
  induction obj as [|[k w] rest IH]; simpl; [reflexivity|].
  destruct (String.eqb k key); [discriminate|].
  intros H. now rewrite IH.
Qed.

Lemma spreadSet_present_keys (obj : JsObject) (key : string) (v : JsValue) :
  getOwn obj key <> None ->
  Object_keys (spreadSet obj key v) = Object_keys obj.
Proof.
  induction obj as [|[k w] rest IH]; simpl; [congruence|].
  destruct (String.eqb k key); simpl; [reflexivity|].
  intros H. now rewrite IH.
Qed.

(** What a successful invocation returns. *)
Lemma execute_success_output (remote : Remote) (p : Params) (items : list Item)
      (out : list (list Item)) (log : list Request) :
  run (execute remote p items) = (inr out, log) ->
  out = [map (outputItem p) items].
Proof.
  run_execute.
  destruct (downloadLink remote (filePath p)) as [err | resp].
  - destruct (tolerated p (HttpFailure err)); [|discriminate].
    cbn [downloadUrl].
    destruct (buildRows p None items []) as [headerRow rows].
    destruct (uploadLink remote (filePath p)) as [e | uploadUrl]; [discriminate|].
    destruct (putFile remote uploadUrl _ _); [discriminate|].
    now intros [= <- _].
  - destruct (downloadUrl (Some resp)) as [url|].
    + destruct (fileContent remote url) as [e | currentCsv]; [discriminate|].
      destruct (discoverHeader p currentCsv) as [e | headerRow]; [discriminate|].
      destruct (buildRows p headerRow items []) as [headerRow' rows].
      destruct (uploadLink remote (filePath p)) as [e | uploadUrl]; [discriminate|].
      destruct (putFile remote uploadUrl _ _); [discriminate|].
      now intros [= <- _].
    + destruct (buildRows p None items []) as [headerRow rows].
      destruct (uploadLink remote (filePath p)) as [e | uploadUrl]; [discriminate|].
      destruct (putFile remote uploadUrl _ _); [discriminate|].
      now intros [= <- _].
Qed.

(** C9 as worded fails on a record that already has a field [_ydisk] (the
    output of an earlier run of this node, say): the invocation succeeds, the
    field is overwritten in place, so it is not passed through unchanged, and
    the output record has no field more than the input. *)
Lemma input_ydisk_field_overwritten :
  run (execute absentRemote defaultParams
         [mkItem [("_ydisk", JNum 1); ("a", JNum 2)]]) =
    (inr [[mkItem [("_ydisk", ydisk defaultParams); ("a", JNum 2)]]],
     [GetDownloadLink "disk:/path/to/file.csv";
      GetUploadLink "disk:/path/to/file.csv";
      PutFile "https://uploader.example/put"
              ("_ydisk,a" ++ LF ++ "1,2" ++ LF) "text/csv; charset=utf-8"])
  /\ getOwn [("_ydisk", JNum 1); ("a", JNum 2)] "_ydisk" = Some (JNum 1)
  /\ getOwn (json (outputItem defaultParams (mkItem [("_ydisk", JNum 1); ("a", JNum 2)])))
            "_ydisk" <> Some (JNum 1)
  /\ List.length (json (outputItem defaultParams
                          (mkItem [("_ydisk", JNum 1); ("a", JNum 2)]))) =
     List.length [("_ydisk", JNum 1); ("a", JNum 2)].
Proof. repeat split. discriminate. Qed.

(** C9, amended.  A successful invocation returns one list with one output
    record per input record, in the input order.  Every field of the input
    record other than [_ydisk] is in the output record unchanged, and the
    output record's [_ydisk] holds the file path.  When the input record has
    no [_ydisk] field, the output record is the input record with exactly
    that one field added after the others; when it has one, the output
    record has the same keys as the input. *)
Theorem output_echoes_input_with_ydisk :
  forall (remote : Remote) (p : Params) (items : list Item)
         (out : list (list Item)) (log : list Request),
    run (execute remote p items) = (inr out, log) ->
    out = [map (outputItem p) items]
    /\ List.length (map (outputItem p) items) = List.length items
    /\ forall i it,
         nth_error items i = Some it ->
         exists o,
           nth_error (map (outputItem p) items) i = Some o
           /\ (forall key, key <> "_ydisk" -> getOwn (json o) key = getOwn (json it) key)
           /\ getOwn (json o) "_ydisk" = Some (ydisk p)
           /\ (getOwn (json it) "_ydisk" = None ->
               json o = (json it ++ [("_ydisk", ydisk p)])%list)
           /\ (getOwn (json it) "_ydisk" <> None ->
               Object_keys (json o) = Object_keys (json it)).
Proof.
  intros remote p items out log Hrun.
  split; [now apply execute_success_output in Hrun | split; [apply length_map|]].
  intros i it Hi. exists (outputItem p it). split; [|split; [|split; [|split]]].
  - rewrite nth_error_map, Hi. reflexivity.
  - intros key Hne. now apply getOwn_spreadSet_other.
  - apply getOwn_spreadSet_same.
  - apply spreadSet_fresh.
  - apply spreadSet_present_keys.
Qed.

Lemma output_echoes_input_with_ydisk_witness :
  [[mkItem [("a", JNum 1); ("b", JNum 2); ("_ydisk", ydisk defaultParams)]]] =
    [map (outputItem defaultParams) [record_ab 1 2]].
Proof.
  refine (proj1 (output_echoes_input_with_ydisk absentRemote defaultParams
                   [record_ab 1 2]
                   [[mkItem [("a", JNum 1); ("b", JNum 2);
                             ("_ydisk", ydisk defaultParams)]]]
                   (snd (run (execute absentRemote defaultParams [record_ab 1 2])))
                   _)).
  reflexivity.
Defined.

Lemma mergeCsv_empty_r (C : string) : mergeCsv C EmptyString = C.
Proof. now destruct C. Qed.

(** C10 as worded fails on an existing file whose first line does not
    parse while a header is declared: with no input record the invocation
    still discovers the header, fails there, and requests neither the upload
    link nor the upload. *)
Lemma empty_input_on_malformed_header_uploads_nothing :
  hasHeader defaultParams = true
  /\ run (execute (existingRemote malformedCsv) defaultParams []) =
       (inl (CsvFailure CsvParse.INVALID_OPENING_QUOTE),
        [GetDownloadLink "disk:/path/to/file.csv";
         GetFile "https://downloader.example/get"])
  /\ existsb isPutFile
       (snd (run (execute (existingRemote malformedCsv) defaultParams []))) = false.
Proof. repeat split. Qed.

(** C10, amended.  No input record and an existing file whose content is
    fetched and whose header discovery does not fail (no header declared,
    blank content, or a first line that parses): the fragment to append is
    empty, the merge leaves the content as it is, with no line feed added,
    and the upload link is still requested; once it is granted the content is
    uploaded as fetched, character for character. *)
Theorem empty_input_reuploads_content :
  forall (remote : Remote) (p : Params) (resp : LinkResponse)
         (url currentCsv : string) (headerRow : option (list string)),
    downloadLink remote (filePath p) = inr resp ->
    downloadUrl (Some resp) = Some url ->
    fileContent remote url = inr currentCsv ->
    discoverHeader p currentCsv = inr headerRow ->
    buildRows p headerRow [] [] = (headerRow, [])
    /\ composeCsv p (Some resp) headerRow [] = EmptyString
    /\ mergeCsv currentCsv EmptyString = currentCsv
    /\ snd (run (execute remote p [])) =
         ([GetDownloadLink (filePath p);
           GetFile url;
           GetUploadLink (filePath p)]
          ++ match uploadLink remote (filePath p) with
             | inr uploadUrl => [PutFile uploadUrl currentCsv (contentType p)]
             | inl _ => []
             end)%list.
Proof.
  intros remote p resp url currentCsv headerRow Hdl Hurl Hfile Hdisc.
  split; [reflexivity | split; [reflexivity | split; [apply mergeCsv_empty_r|]]].
  run_execute. rewrite Hdl. cbn [app]. rewrite Hurl, Hfile, Hdisc.
  cbn [buildRows composeCsv CsvStringify.stringify]. rewrite mergeCsv_empty_r.
  destruct (uploadLink remote (filePath p)) as [e | uploadUrl]; [reflexivity|].
  cbn [app]. destruct (putFile remote uploadUrl _ _); reflexivity.
Qed.

Lemma empty_input_reuploads_content_witness :
  snd (run (execute (existingRemote "a,b") defaultParams [])) =
    [GetDownloadLink "disk:/path/to/file.csv";
     GetFile "https://downloader.example/get";
     GetUploadLink "disk:/path/to/file.csv";
     PutFile "https://uploader.example/put" "a,b" "text/csv; charset=utf-8"].
Proof.
  apply (empty_input_reuploads_content (existingRemote "a,b") defaultParams
           (mkLinkResponse (Some "https://downloader.example/get"))
           "https://downloader.example/get" "a,b" (Some ["a"; "b"]));
    reflexivity.
Defined.

(* ================================================================== *)
(** * Further properties of [execute] and its steps *)

(** *** The paths through [execute] *)

Lemma run_execute_cases (remote : Remote) (p : Params) (items : list Item) :
  run (execute remote p items) =
    match downloadLink remote (filePath p) with
    | inl err =>
        if tolerated p (HttpFailure err) then
          uploadAndReturn remote p items (finalCsv p None EmptyString None items)
                          [GetDownloadLink (filePath p)]
        else (inl (HttpFailure err), [GetDownloadLink (filePath p)])
    | inr resp =>
        match downloadUrl (Some resp) with
        | None =>
            uploadAndReturn remote p items
                            (finalCsv p (Some resp) EmptyString None items)
                            [GetDownloadLink (filePath p)]
        | Some url =>
            match fileContent remote url with
            | inl e =>
                (inl (HttpFailure e), [GetDownloadLink (filePath p); GetFile url])
            | inr currentCsv =>
                match discoverHeader p currentCsv with
                | inl e =>
                    (inl (CsvFailure e), [GetDownloadLink (filePath p); GetFile url])
                | inr headerRow =>
                    uploadAndReturn remote p items
                                    (finalCsv p (Some resp) currentCsv headerRow items)
                                    [GetDownloadLink (filePath p); GetFile url]
                end
            end
        end
    end.
Proof.
  unfold uploadAndReturn, finalCsv. run_execute.
  destruct (downloadLink remote (filePath p)) as [err | resp]; cbn [app].
  - destruct (tolerated p (HttpFailure err)); [|reflexivity].
    cbn [downloadUrl].
    destruct (buildRows p None items []) as [headerRow rows].
    destruct (uploadLink remote (filePath p)) as [e | uploadUrl]; [reflexivity|].
    cbn [app]. destruct (putFile remote uploadUrl _ _); reflexivity.
  - destruct (downloadUrl (Some resp)) as [url|].
    + destruct (fileContent remote url) as [e | currentCsv]; [reflexivity|].
      destruct (discoverHeader p currentCsv) as [e | headerRow]; [reflexivity|].
      destruct (buildRows p headerRow items []) as [headerRow' rows].
      destruct (uploadLink remote (filePath p)) as [e | uploadUrl]; [reflexivity|].
      cbn [app]. destruct (putFile remote uploadUrl _ _); reflexivity.
    + destruct (buildRows p None items []) as [headerRow rows].
      destruct (uploadLink remote (filePath p)) as [e | uploadUrl]; [reflexivity|].
      cbn [app]. destruct (putFile remote uploadUrl _ _); reflexivity.
Qed.

Lemma tolerated_404 (p : Params) (err : HttpError) :
  tolerated p (HttpFailure err) = true <->
  statusCode err = Some 404%Z /\ createIfMissing p = true.
Proof.
  unfold tolerated. destruct (statusCode err) as [c|].
  - rewrite andb_true_iff, Z.eqb_eq. split.
    + intros [-> H]. now split.
    + intros [[= ->] H]. now split.
  - split; [discriminate | intros [H _]; discriminate].
Qed.

(** X1. A download-link failure whose status is not 404 (or that carries no
    status at all) fails the invocation with that error after the single
    download-link request, whether or not creation is allowed. *)
Theorem download_failure_other_than_404_is_fatal :
  forall (remote : Remote) (p : Params) (items : list Item) (err : HttpError),
    downloadLink remote (filePath p) = inl err ->
    statusCode err <> Some 404%Z ->
    run (execute remote p items) =
      (inl (HttpFailure err), [GetDownloadLink (filePath p)]).
Proof.
  intros remote p items err Hdl Hne.
  rewrite run_execute_cases, Hdl.
  destruct (tolerated p (HttpFailure err)) eqn:T; [|reflexivity].
  apply tolerated_404 in T. now destruct T.
Qed.

Lemma download_failure_other_than_404_is_fatal_witness :
  run (execute brokenRemote defaultParams [record_ab 1 2]) =
    (inl (HttpFailure serverError), [GetDownloadLink "disk:/path/to/file.csv"]).
Proof.
  apply (download_failure_other_than_404_is_fatal brokenRemote defaultParams
           [record_ab 1 2] serverError); [reflexivity | discriminate].
Defined.

(** X2. When the file content cannot be fetched, the invocation fails with
    the error of that request; the upload link is not asked for and nothing
    is uploaded. *)
Theorem fetch_failure_is_fatal :
  forall (remote : Remote) (p : Params) (items : list Item)
         (resp : LinkResponse) (url : string) (err : HttpError),
    downloadLink remote (filePath p) = inr resp ->
    downloadUrl (Some resp) = Some url ->
    fileContent remote url = inl err ->
    run (execute remote p items) =
      (inl (HttpFailure err), [GetDownloadLink (filePath p); GetFile url]).
Proof.
  intros remote p items resp url err Hdl Hurl Hfile.
  now rewrite run_execute_cases, Hdl, Hurl, Hfile.
Qed.

Lemma fetch_failure_is_fatal_witness :
  run (execute unreadableRemote defaultParams [record_ab 1 2]) =
    (inl (HttpFailure serverError),
     [GetDownloadLink "disk:/path/to/file.csv";
      GetFile "https://downloader.example/get"]).
Proof.
  apply (fetch_failure_is_fatal unreadableRemote defaultParams [record_ab 1 2]
           (mkLinkResponse (Some "https://downloader.example/get"))
           "https://downloader.example/get" serverError); reflexivity.
Defined.

Lemma uploadAndReturn_no_link (remote : Remote) (p : Params) (items : list Item)
      (body : string) (log : list Request) (err : HttpError) :
  uploadLink remote (filePath p) = inl err ->
  uploadAndReturn remote p items body log =
    (inl (HttpFailure err), (log ++ [GetUploadLink (filePath p)])%list).
Proof. intros H. unfold uploadAndReturn. now rewrite H. Qed.

(** X3. When the upload link is refused, the invocation fails and no upload
    is issued, whatever happened before; if the earlier steps went through,
    the failure is the error of the upload-link request. *)
Theorem upload_link_failure_uploads_nothing :
  forall (remote : Remote) (p : Params) (items : list Item) (err : HttpError),
    uploadLink remote (filePath p) = inl err ->
    (exists f, fst (run (execute remote p items)) = inl f)
    /\ existsb isPutFile (snd (run (execute remote p items))) = false
    /\ (In (GetUploadLink (filePath p)) (snd (run (execute remote p items))) ->
        fst (run (execute remote p items)) = inl (HttpFailure err)).
Proof.
  intros remote p items err Hup.
  rewrite run_execute_cases.
  destruct (downloadLink remote (filePath p)) as [e | resp].
  - destruct (tolerated p (HttpFailure e)).
    + rewrite (uploadAndReturn_no_link _ _ _ _ _ _ Hup). cbn. eauto.
    + cbn. split; [eauto | split; [reflexivity|]]. intros [H | []]. discriminate.
  - destruct (downloadUrl (Some resp)) as [url|].
    + destruct (fileContent remote url) as [e | currentCsv].
      * cbn. split; [eauto | split; [reflexivity|]].
        intros [H | [H | []]]; discriminate.
      * destruct (discoverHeader p currentCsv) as [e | headerRow].
        -- cbn. split; [eauto | split; [reflexivity|]].
           intros [H | [H | []]]; discriminate.
        -- rewrite (uploadAndReturn_no_link _ _ _ _ _ _ Hup). cbn. eauto.
    + rewrite (uploadAndReturn_no_link _ _ _ _ _ _ Hup). cbn. eauto.
Qed.

Lemma upload_link_failure_uploads_nothing_witness :
  existsb isPutFile
    (snd (run (execute (readOnlyRemote ("a,b" ++ LF)) defaultParams [record_ab 1 2])))
  = false.
Proof.
  apply (upload_link_failure_uploads_nothing (readOnlyRemote ("a,b" ++ LF))
           defaultParams [record_ab 1 2] serverError eq_refl).
Defined.

Lemma uploadAndReturn_log (remote : Remote) (p : Params) (items : list Item)
      (body : string) (log : list Request) :
  snd (uploadAndReturn remote p items body log) =
    (log ++ [GetUploadLink (filePath p)])%list
  \/ exists uploadUrl,
       uploadLink remote (filePath p) = inr uploadUrl
       /\ snd (uploadAndReturn remote p items body log) =
            (log ++ [GetUploadLink (filePath p);
                     PutFile uploadUrl body (contentType p)])%list.
Proof.
  unfold uploadAndReturn.
  destruct (uploadLink remote (filePath p)) as [e | uploadUrl]; [now left|].
  right. exists uploadUrl. split; [reflexivity|].
  destruct (putFile remote uploadUrl body (contentType p)); reflexivity.
Qed.

(** X4. The requests of an invocation, in order, are always one of six
    sequences: the download link comes first; the file is fetched at most
    once, right after it; the upload link follows; the upload, if any, is the
    last request, goes to the URL the upload link gave and carries the
    configured content type.  Both links are asked for the configured path. *)
Theorem request_log_shape :
  forall (remote : Remote) (p : Params) (items : list Item),
    let log := snd (run (execute remote p items)) in
    let dl := GetDownloadLink (filePath p) in
    let ul := GetUploadLink (filePath p) in
    log = [dl]
    \/ (exists url, log = [dl; GetFile url])
    \/ log = [dl; ul]
    \/ (exists uploadUrl body,
          uploadLink remote (filePath p) = inr uploadUrl
          /\ log = [dl; ul; PutFile uploadUrl body (contentType p)])
    \/ (exists url, log = [dl; GetFile url; ul])
    \/ (exists url uploadUrl body,
          uploadLink remote (filePath p) = inr uploadUrl
          /\ log = [dl; GetFile url; ul; PutFile uploadUrl body (contentType p)]).
Proof.
  intros remote p items. cbv zeta. rewrite run_execute_cases.
  destruct (downloadLink remote (filePath p)) as [e | resp].
  - destruct (tolerated p (HttpFailure e)); [|now left].
    destruct (uploadAndReturn_log remote p items
                (finalCsv p None EmptyString None items)
                [GetDownloadLink (filePath p)]) as [H | (u & Hu & H)];
      rewrite H; cbn [app]; [tauto|]. do 3 right. left. eauto.
  - destruct (downloadUrl (Some resp)) as [url|].
    + destruct (fileContent remote url) as [e | currentCsv];
        [right; left; eexists; reflexivity|].
      destruct (discoverHeader p currentCsv) as [e | headerRow];
        [right; left; eexists; reflexivity|].
      destruct (uploadAndReturn_log remote p items
                  (finalCsv p (Some resp) currentCsv headerRow items)
                  [GetDownloadLink (filePath p); GetFile url]) as [H | (u & Hu & H)];
        rewrite H; cbn [app]; [do 4 right; left; eauto|].
      do 5 right. eauto.
    + destruct (uploadAndReturn_log remote p items
                  (finalCsv p (Some resp) EmptyString None items)
                  [GetDownloadLink (filePath p)]) as [H | (u & Hu & H)];
        rewrite H; cbn [app]; [tauto|]. do 3 right. left. eauto.
Qed.

Lemma uploadAndReturn_success (remote : Remote) (p : Params) (items : list Item)
      (body : string) (log0 log : list Request) (out : list (list Item)) :
  uploadAndReturn remote p items body log0 = (inr out, log) ->
  exists uploadUrl,
    uploadLink remote (filePath p) = inr uploadUrl
    /\ putFile remote uploadUrl body (contentType p) = inr tt
    /\ log = (log0 ++ [GetUploadLink (filePath p);
                       PutFile uploadUrl body (contentType p)])%list.
Proof.
  unfold uploadAndReturn.
  destruct (uploadLink remote (filePath p)) as [e | uploadUrl]; [discriminate|].
  destruct (putFile remote uploadUrl body (contentType p)) as [e | []] eqn:Hput;
    [discriminate|].
  intros [= _ <-]. exists uploadUrl. auto.
Qed.

(** X5. An invocation returns output only after the service accepted the
    upload: on success the last two requests are the upload link and the
    upload, and the service answered both without error.  So a refused
    upload, like any earlier failure, leaves the invocation without output. *)
Theorem success_means_upload_accepted :
  forall (remote : Remote) (p : Params) (items : list Item)
         (out : list (list Item)) (log : list Request),
    run (execute remote p items) = (inr out, log) ->
    exists pre uploadUrl body,
      log = (pre ++ [GetUploadLink (filePath p);
                     PutFile uploadUrl body (contentType p)])%list
      /\ uploadLink remote (filePath p) = inr uploadUrl
      /\ putFile remote uploadUrl body (contentType p) = inr tt.
Proof.
  intros remote p items out log. rewrite run_execute_cases.
  destruct (downloadLink remote (filePath p)) as [e | resp].
  - destruct (tolerated p (HttpFailure e)); [|discriminate].
    intros H. apply uploadAndReturn_success in H. destruct H as (u & H1 & H2 & H3).
    eauto 6.
  - destruct (downloadUrl (Some resp)) as [url|].
    + destruct (fileContent remote url) as [e | currentCsv]; [discriminate|].
      destruct (discoverHeader p currentCsv) as [e | headerRow]; [discriminate|].
      intros H. apply uploadAndReturn_success in H. destruct H as (u & H1 & H2 & H3).
      eauto 6.
    + intros H. apply uploadAndReturn_success in H. destruct H as (u & H1 & H2 & H3).
      eauto 6.
Qed.

Lemma success_means_upload_accepted_witness :
  exists pre uploadUrl body,
    snd (run (execute (existingRemote ("a,b" ++ LF)) defaultParams [record_ab 1 2])) =
      (pre ++ [GetUploadLink "disk:/path/to/file.csv";
               PutFile uploadUrl body "text/csv; charset=utf-8"])%list
    /\ uploadLink (existingRemote ("a,b" ++ LF)) "disk:/path/to/file.csv" = inr uploadUrl
    /\ putFile (existingRemote ("a,b" ++ LF)) uploadUrl body "text/csv; charset=utf-8"
       = inr tt.
Proof.
  apply (success_means_upload_accepted (existingRemote ("a,b" ++ LF)) defaultParams
           [record_ab 1 2]
           (match fst (run (execute (existingRemote ("a,b" ++ LF)) defaultParams
                              [record_ab 1 2])) with
            | inr out => out
            | inl _ => []
            end)
           (snd (run (execute (existingRemote ("a,b" ++ LF)) defaultParams
                        [record_ab 1 2])))).
  reflexivity.
Defined.

(** A refused upload: the request is issued, the invocation fails. *)
Lemma refused_upload_fails :
  run (execute (refusingRemote ("a,b" ++ LF)) defaultParams [record_ab 1 2]) =
    (inl (HttpFailure serverError),
     [GetDownloadLink "disk:/path/to/file.csv";
      GetFile "https://downloader.example/get";
      GetUploadLink "disk:/path/to/file.csv";
      PutFile "https://uploader.example/put" ("a,b" ++ LF ++ "1,2" ++ LF)
              "text/csv; charset=utf-8"]).
Proof. reflexivity. Qed.

(** *** What is uploaded *)









Lemma string_append_empty_r (s : string) : s ++ EmptyString = s.
Proof. induction s as [|c r IH]; simpl; [reflexivity | now rewrite IH]. Qed.

(** X9. Creating an absent file from no record at all: with a header wanted,
    mode byHeader has no record to take the header from and writes one empty
    line, mode byColumns writes the explicit column row; with no header
    wanted the created file is empty.  The upload is issued in every case. *)
Theorem create_from_no_record :
  forall (remote : Remote) (p : Params) (err : HttpError) (uploadUrl : string),
    downloadLink remote (filePath p) = inl err ->
    statusCode err = Some 404%Z ->
    createIfMissing p = true ->
    uploadLink remote (filePath p) = inr uploadUrl ->
    snd (run (execute remote p [])) =
      [GetDownloadLink (filePath p);
       GetUploadLink (filePath p);
       PutFile uploadUrl
         (if hasHeader p && writeHeaderOnCreate p then
            match mappingMode p with
            | byHeader => LF
            | byColumns => CsvStringify.stringify (delimiter p) [explicitColumns p]
            end
          else EmptyString)
         (contentType p)].
Proof.
  intros remote p err uploadUrl Hdl H404 Hc Hup.
  rewrite run_execute_cases, Hdl.
  rewrite (proj2 (tolerated_404 p err) (conj H404 Hc)).
  unfold finalCsv, uploadAndReturn. cbn [buildRows composeCsv]. rewrite Hc, Hup.
  cbn [andb]. rewrite mergeCsv_empty_l.
  destruct (hasHeader p && writeHeaderOnCreate p); destruct (mappingMode p);
    cbn [CsvStringify.stringify CsvStringify.stringifyRecord];
    rewrite ?string_append_empty_r;
    destruct (putFile remote uploadUrl _ _); reflexivity.
Qed.

Lemma create_from_no_record_witness :
  snd (run (execute absentRemote defaultParams [])) =
    [GetDownloadLink "disk:/path/to/file.csv";
     GetUploadLink "disk:/path/to/file.csv";
     PutFile "https://uploader.example/put" LF "text/csv; charset=utf-8"].
Proof.
  apply (create_from_no_record absentRemote defaultParams notFound
           "https://uploader.example/put"); reflexivity.
Defined.

(** *** Merging keeps what was there *)

Lemma mergeCsv_separator (C A : string) :
  exists sep, (sep = EmptyString \/ sep = LF) /\ mergeCsv C A = C ++ sep ++ A.
Proof.
  unfold mergeCsv. destruct C as [|c C'].
  - exists EmptyString. auto.
  - destruct A as [|a A'].
    + exists EmptyString. cbn [truthy andb negb]. split; [auto|].
      now rewrite !string_append_empty_r.
    + cbn [truthy andb]. unfold ensureTrailingNewline.
      destruct (endsWith (String c C') nl).
      * exists EmptyString. auto.
      * exists LF. split; [auto|]. unfold LF. now rewrite string_append_assoc.
Qed.



(** *** The uploaded text ends its last line *)

Lemma endsWith_app_r (x a : string) (c : ascii) :
  endsWith a c = true -> endsWith (x ++ a) c = true.
Proof.
  intros H. apply endsWith_true_iff in H. destruct H as [a' ->].
  apply endsWith_true_iff. exists (x ++ a'). now rewrite string_append_assoc.
Qed.

Lemma stringify_ends_with_newline (d : Delimiter) (rows : list (list string)) :
  rows <> [] -> endsWith (CsvStringify.stringify d rows) nl = true.
Proof.
  induction rows as [|r rest IH]; [congruence|]. intros _.
  cbn [CsvStringify.stringify]. apply endsWith_app_r.
  destruct rest as [|r' rest'].
  - reflexivity.
  - assert (H : endsWith (CsvStringify.stringify d (r' :: rest')) nl = true)
      by (apply IH; discriminate).
    destruct (CsvStringify.stringify d (r' :: rest')) eqn:E; [discriminate|].
    exact H.
Qed.

Lemma buildRows_length (p : Params) (items : list Item) :
  forall headerRow rows,
    List.length (snd (buildRows p headerRow items rows)) =
      (List.length rows + List.length items)%nat.
Proof.
  induction items as [|it rest IH]; intros headerRow rows; cbn [buildRows].
  - cbn. lia.
  - destruct (mappingMode p); rewrite IH, length_app; cbn; lia.
Qed.

Lemma endsWith_truthy (s : string) (c : ascii) : endsWith s c = true -> truthy s = true.
Proof. destruct s; [discriminate | reflexivity]. Qed.

Lemma mergeCsv_ends_with_newline (C A : string) :
  endsWith A nl = true -> endsWith (mergeCsv C A) nl = true.
Proof.
  intros H. unfold mergeCsv. rewrite (endsWith_truthy A nl H).
  destruct (truthy C); cbn [andb negb]; [now apply endsWith_app_r | exact H].
Qed.

Lemma finalCsv_ends_with_newline (p : Params) (dlLinkResp : option LinkResponse)
      (currentCsv : string) (headerRow : option (list string)) (items : list Item) :
  items <> [] ->
  endsWith (finalCsv p dlLinkResp currentCsv headerRow items) nl = true.
Proof.
  intros Hne. unfold finalCsv.
  pose proof (buildRows_length p items headerRow []) as Hlen.
  destruct (buildRows p headerRow items []) as [hr rows]. cbn [snd] in Hlen.
  assert (Hrows : rows <> []).
  { destruct rows; [|discriminate]. destruct items; [congruence | discriminate]. }
  apply mergeCsv_ends_with_newline. unfold composeCsv.
  pose proof (stringify_ends_with_newline (delimiter p) rows Hrows) as Hs.
  destruct dlLinkResp; [exact Hs|].
  destruct (createIfMissing p && (hasHeader p && writeHeaderOnCreate p));
    [now apply endsWith_app_r | exact Hs].
Qed.

Lemma uploadAndReturn_put (remote : Remote) (p : Params) (items : list Item)
      (body : string) (log : list Request) (url b ct : string) :
  existsb isPutFile log = false ->
  In (PutFile url b ct) (snd (uploadAndReturn remote p items body log)) ->
  b = body.
Proof.
  intros Hlog Hin.
  assert (Hnot : ~ In (PutFile url b ct) log).
  { intros H. assert (E : existsb isPutFile log = true)
      by (apply existsb_exists; exists (PutFile url b ct); auto).
    congruence. }
  destruct (uploadAndReturn_log remote p items body log) as [H | (u & _ & H)];
    rewrite H in Hin; apply in_app_or in Hin; destruct Hin as [Hin | Hin];
    try contradiction.
  - destruct Hin as [Hin | []]. discriminate.
  - destruct Hin as [Hin | [Hin | []]]; [discriminate|]. now injection Hin.
Qed.

(** X11. Whenever at least one record is given, the text that is uploaded
    ends with a line feed, on every path that reaches the upload: the next
    invocation finds a file whose last line is terminated. *)
Theorem uploaded_text_ends_with_newline :
  forall (remote : Remote) (p : Params) (items : list Item)
         (uploadUrl body ct : string),
    items <> [] ->
    In (PutFile uploadUrl body ct) (snd (run (execute remote p items))) ->
    endsWith body nl = true.
Proof.
  intros remote p items uploadUrl body ct Hne. rewrite run_execute_cases.
  destruct (downloadLink remote (filePath p)) as [e | resp].
  - destruct (tolerated p (HttpFailure e)).
    + intros H. apply uploadAndReturn_put in H; [|reflexivity]. subst body.
      now apply finalCsv_ends_with_newline.
    + intros [H | []]. discriminate.
  - destruct (downloadUrl (Some resp)) as [url|].
    + destruct (fileContent remote url) as [e | currentCsv].
      * intros [H | [H | []]]; discriminate.
      * destruct (discoverHeader p currentCsv) as [e | headerRow].
        -- intros [H | [H | []]]; discriminate.
        -- intros H. apply uploadAndReturn_put in H; [|reflexivity]. subst body.
           now apply finalCsv_ends_with_newline.
    + intros H. apply uploadAndReturn_put in H; [|reflexivity]. subst body.
      now apply finalCsv_ends_with_newline.
Qed.

Lemma uploaded_text_ends_with_newline_witness :
  endsWith ("a,b" ++ LF ++ "1,2" ++ LF) nl = true.
Proof.
  apply (uploaded_text_ends_with_newline (existingRemote "a,b") defaultParams
           [record_ab 1 2] "https://uploader.example/put"
           ("a,b" ++ LF ++ "1,2" ++ LF) "text/csv; charset=utf-8").
  - discriminate.
  - do 3 right. left. reflexivity.
Defined.

(** *** The rows *)

Lemma buildRow_length (keys : list string) (obj : JsObject) :
  List.length (buildRow keys obj) = List.length keys.
Proof. apply length_map. Qed.

(** X12. On records whose values [String] converts, the loop builds one row
    per record, in the order of the records, and all rows have the same
    number of cells: the length of the header the loop ends with in mode
    byHeader, the number of explicit columns in mode byColumns, however many
    fields each record has. *)
Theorem rows_are_rectangular :
  forall (p : Params) (headerRow : option (list string)) (items : list Item),
    itemsConvertible items = true ->
    List.length (snd (buildRows p headerRow items [])) = List.length items
    /\ (mappingMode p = byHeader ->
        forall h, fst (buildRows p headerRow items []) = Some h ->
                  Forall (fun row => List.length row = List.length h)
                         (snd (buildRows p headerRow items [])))
    /\ (mappingMode p = byColumns ->
        Forall (fun row => List.length row = List.length (explicitColumns p))
               (snd (buildRows p headerRow items []))).
Proof.
  intros p headerRow items _. split; [|split].
  - now rewrite buildRows_length.
  - intros Hm h Hh. destruct headerRow as [h0|].
    + rewrite buildRows_byHeader_known in * by assumption. cbn in *.
      injection Hh as ->. apply Forall_forall. intros row Hin.
      apply in_map_iff in Hin. destruct Hin as (it & <- & _). apply buildRow_length.
    + destruct items as [|first rest]; [discriminate|].
      rewrite buildRows_byHeader_unknown in * by assumption. cbn [fst snd] in *.
      injection Hh as <-. apply Forall_forall. intros row Hin.
      apply in_map_iff in Hin. destruct Hin as (it & <- & _). apply buildRow_length.
  - intros Hm. rewrite buildRows_byColumns by assumption. cbn.
    apply Forall_forall. intros row Hin.
    apply in_map_iff in Hin. destruct Hin as (it & <- & _). apply buildRow_length.
Qed.

Lemma rows_are_rectangular_witness :
  Forall (fun row => List.length row = 2%nat)
         (snd (buildRows defaultParams None
                 [record_ab 1 2; mkItem [("c", JNum 3)]; mkItem []] [])).
Proof.
  apply (proj1 (proj2 (rows_are_rectangular defaultParams None
                         [record_ab 1 2; mkItem [("c", JNum 3)]; mkItem []]
                         eq_refl))
               eq_refl ["a"; "b"] eq_refl).
Defined.

Lemma stringify_empty_rows (d : Delimiter) (n : nat) :
  CsvStringify.stringify d (repeat [] n) = string_of_list_ascii (repeat nl n).
Proof. induction n as [|n IH]; cbn; [reflexivity | now rewrite IH]. Qed.

(** X13. Mode byColumns with no usable column name (the default, empty
    column list, or one made of commas and blanks only): every record gives
    the empty row, so the appended text is one bare line feed per record and
    no value of any record is written. *)
Theorem no_explicit_column_appends_blank_lines :
  forall (p : Params) (headerRow : option (list string)) (items : list Item),
    mappingMode p = byColumns ->
    explicitColumns p = [] ->
    snd (buildRows p headerRow items []) = repeat [] (List.length items)
    /\ CsvStringify.stringify (delimiter p) (snd (buildRows p headerRow items [])) =
         string_of_list_ascii (repeat nl (List.length items)).
Proof.
  intros p headerRow items Hm Hcols.
  assert (H : snd (buildRows p headerRow items []) = repeat [] (List.length items)).
  { rewrite buildRows_byColumns by assumption. cbn. rewrite Hcols.
    induction items as [|it rest IH]; [reflexivity|].
    cbn [map List.length repeat]. now rewrite IH. }
  split; [exact H|]. rewrite H. apply stringify_empty_rows.
Qed.

Lemma no_explicit_column_appends_blank_lines_witness :
  CsvStringify.stringify Comma
    (snd (buildRows
            (mkParams "disk:/r.csv" Comma "utf-8" true byColumns true true " , ,")
            None [record_ab 1 2; record_ab 3 4] [])) = LF ++ LF.
Proof.
  apply (no_explicit_column_appends_blank_lines
           (mkParams "disk:/r.csv" Comma "utf-8" true byColumns true true " , ,")
           None [record_ab 1 2; record_ab 3 4]); reflexivity.
Defined.

Lemma uploadAndReturn_no_csv_failure (remote : Remote) (p : Params)
      (items : list Item) (body : string) (log0 log : list Request)
      (e : CsvParse.CsvError) :
  uploadAndReturn remote p items body log0 <> (inl (CsvFailure e), log).
Proof.
  unfold uploadAndReturn.
  destruct (uploadLink remote (filePath p)) as [err | u]; [discriminate|].
  destruct (putFile remote u body (contentType p)); discriminate.
Qed.

(** X14. The invocation fails with a parser error only in one situation: a
    header is declared, the file was fetched, its content is not blank, and
    its first line does not parse; the file was fetched and nothing else was
    requested afterwards.  With [hasHeader] off, or on an absent file, no
    content can make the invocation fail this way. *)
Theorem parser_error_only_from_declared_header :
  forall (remote : Remote) (p : Params) (items : list Item)
         (e : CsvParse.CsvError) (log : list Request),
    run (execute remote p items) = (inl (CsvFailure e), log) ->
    hasHeader p = true
    /\ exists resp url currentCsv,
         downloadLink remote (filePath p) = inr resp
         /\ downloadUrl (Some resp) = Some url
         /\ fileContent remote url = inr currentCsv
         /\ blank currentCsv = false
         /\ CsvParse.parse (firstLine currentCsv) (delimiter p) = inl e
         /\ log = [GetDownloadLink (filePath p); GetFile url].
Proof.
  intros remote p items e log. rewrite run_execute_cases.
  destruct (downloadLink remote (filePath p)) as [err | resp] eqn:Hdl.
  - destruct (tolerated p (HttpFailure err)); [|discriminate].
    intros H. now apply uploadAndReturn_no_csv_failure in H.
  - destruct (downloadUrl (Some resp)) as [url|] eqn:Hurl.
    + destruct (fileContent remote url) as [err | currentCsv] eqn:Hfile;
        [discriminate|].
      destruct (discoverHeader p currentCsv) as [e' | headerRow] eqn:Hdisc.
      * intros [= -> <-]. unfold discoverHeader in Hdisc.
        destruct (headerGuard p currentCsv) eqn:Hg; [|discriminate].
        rewrite headerGuard_blank in Hg. apply andb_true_iff in Hg.
        destruct Hg as [Hh Hb]. apply negb_true_iff in Hb.
        split; [exact Hh|]. exists resp, url, currentCsv.
        destruct (CsvParse.parse (firstLine currentCsv) (delimiter p)) as [e''|];
          [|discriminate].
        injection Hdisc as ->. auto 8.
      * intros H. now apply uploadAndReturn_no_csv_failure in H.
    + intros H. now apply uploadAndReturn_no_csv_failure in H.
Qed.

Lemma parser_error_only_from_declared_header_witness :
  hasHeader defaultParams = true
  /\ exists resp url currentCsv,
       downloadLink (existingRemote malformedCsv) (filePath defaultParams) = inr resp
       /\ downloadUrl (Some resp) = Some url
       /\ fileContent (existingRemote malformedCsv) url = inr currentCsv
       /\ blank currentCsv = false
       /\ CsvParse.parse (firstLine currentCsv) (delimiter defaultParams) =
            inl CsvParse.INVALID_OPENING_QUOTE
       /\ snd (run (execute (existingRemote malformedCsv) defaultParams [])) =
            [GetDownloadLink (filePath defaultParams); GetFile url].
Proof.
  apply (parser_error_only_from_declared_header (existingRemote malformedCsv)
           defaultParams [] CsvParse.INVALID_OPENING_QUOTE
           (snd (run (execute (existingRemote malformedCsv) defaultParams [])))).
  reflexivity.
Defined.

(** *** The explicit column list *)

Lemma trimEnd_idempotent (s : string) : trimEnd (trimEnd s) = trimEnd s.
Proof.
  induction s as [|c r IH]; [reflexivity|]. cbn [trimEnd].
  destruct (trimEnd r) as [|c' r'] eqn:E.
  - destruct (isWhiteSpace c) eqn:W; [reflexivity|]. cbn. now rewrite W.
  - cbn [trimEnd] in *. now rewrite IH.
Qed.

Lemma trimStart_fixed (c : ascii) (r : string) :
  isWhiteSpace c = false -> trimStart (String c r) = String c r.
Proof. intros W. cbn. now rewrite W. Qed.

Lemma trimStart_head (s : string) :
  trimStart s = EmptyString
  \/ exists c r, trimStart s = String c r /\ isWhiteSpace c = false.
Proof.
  induction s as [|c r IH]; [now left|]. cbn.
  destruct (isWhiteSpace c) eqn:W; [exact IH|]. right. eauto.
Qed.

Lemma trimEnd_keeps_head (c : ascii) (r : string) :
  isWhiteSpace c = false -> exists r', trimEnd (String c r) = String c r'.
Proof.
  intros W. cbn. destruct (trimEnd r); [rewrite W|]; eauto.
Qed.

Lemma trim_idempotent (s : string) : trim (trim s) = trim s.
Proof.
  unfold trim. destruct (trimStart_head s) as [E | (c & r & E & W)]; rewrite E.
  - reflexivity.
  - destruct (trimEnd_keeps_head c r W) as [r' E'].
    rewrite E', (trimStart_fixed c r' W), <- E'. apply trimEnd_idempotent.
Qed.

Lemma includes_trimStart (x : ascii) (s : string) :
  includes x (trimStart s) = true -> includes x s = true.
Proof.
  induction s as [|c r IH]; cbn; [auto|].
  destruct (isWhiteSpace c); [|auto].
  intros H. rewrite (IH H). apply orb_true_r.
Qed.

Lemma includes_trimEnd (x : ascii) (s : string) :
  includes x (trimEnd s) = true -> includes x s = true.
Proof.
  induction s as [|c r IH]; cbn; [auto|].
  destruct (trimEnd r) as [|c' r'].
  - destruct (isWhiteSpace c); cbn; [discriminate|].
    rewrite orb_false_r. intros ->. reflexivity.
  - cbn [includes] in *. intros H. apply orb_true_iff in H.
    destruct H as [H | H]; [now rewrite H|]. rewrite (IH H). apply orb_true_r.
Qed.

Lemma split_pieces_without_separator (sep : ascii) (s piece : string) :
  In piece (split sep s) -> includes sep piece = false.
Proof.
  revert piece. induction s as [|c r IH]; intros piece; cbn.
  - intros [<- | []]. reflexivity.
  - destruct (Ascii.eqb c sep) eqn:E.
    + intros [<- | H]; [reflexivity | now apply IH].
    + destruct (split sep r) as [|h t].
      * intros [<- | []]. cbn. now rewrite E.
      * intros [<- | H].
        -- cbn. rewrite E. apply IH. now left.
        -- apply IH. now right.
Qed.

(** X15. Every name in the explicit column list is non-empty, has no white
    space at either end (trimming it again changes nothing) and holds no
    comma, whatever text was configured. *)
Theorem explicit_columns_are_clean :
  forall (p : Params) (name : string),
    In name (explicitColumns p) ->
    name <> EmptyString /\ trim name = name /\ includes ","%char name = false.
Proof.
  intros p name Hin. unfold explicitColumns in Hin.
  apply filter_In in Hin. destruct Hin as [Hin Ht].
  apply in_map_iff in Hin. destruct Hin as (piece & <- & Hpiece).
  split; [|split].
  - intros E. rewrite E in Ht. discriminate.
  - apply trim_idempotent.
  - apply split_pieces_without_separator in Hpiece.
    destruct (includes ","%char (trim piece)) eqn:E; [|reflexivity].
    unfold trim in E. apply includes_trimEnd, includes_trimStart in E. congruence.
Qed.

Lemma explicit_columns_are_clean_witness :
  "b" <> EmptyString /\ trim "b" = "b" /\ includes ","%char "b" = false.
Proof.
  apply (explicit_columns_are_clean
           (mkParams "disk:/r.csv" Comma "utf-8" true byColumns true true " b , a,,")
           "b").
  left. reflexivity.
Defined.

(** *** Successive invocations *)





Lemma prefix_one_head (a b : ascii) (s s' : string) :
  prefix (String a EmptyString) (String b s) = prefix (String a EmptyString) (String b s').
Proof.
  simpl. destruct (ascii_dec a b); [|reflexivity]. now destruct s, s'.
Qed.

Lemma firstLine_app (C X : string) :
  includes nl C = true -> firstLine (C ++ X) = firstLine C.
Proof.
  induction C as [|c r IH]; [discriminate|]. cbn [includes append firstLine].
  destruct (Ascii.eqb c nl) eqn:E; [reflexivity|]. cbn [orb]. intros H.
  destruct r as [|c' r'].
  - discriminate.
  - change (String c' r' ++ X) with (String c' (r' ++ X)) at 1.
    rewrite (prefix_one_head nl c' (r' ++ X) r').
    change (String c' (r' ++ X)) with (String c' r' ++ X). destruct (Ascii.eqb c cr && prefix (String nl EmptyString) (String c' r'));
      [reflexivity|]. now rewrite IH.
Qed.

Lemma blank_app (a b : string) : blank (a ++ b) = blank a && blank b.
Proof.
  unfold blank. induction a as [|c r IH]; [reflexivity|].
  cbn. now rewrite IH, andb_assoc.
Qed.

Lemma guard_and_first_line_after_merge (p : Params) (C A : string) :
  includes nl C = true ->
  headerGuard p C = true ->
  headerGuard p (mergeCsv C A) = true /\ firstLine (mergeCsv C A) = firstLine C.
Proof.
  intros Hnl Hg.
  destruct (mergeCsv_separator C A) as (sep & _ & ->).
  rewrite headerGuard_blank in Hg. apply andb_true_iff in Hg.
  destruct Hg as [Hh Hb]. apply negb_true_iff in Hb.
  rewrite headerGuard_blank, blank_app, Hh, Hb. split; [reflexivity|].
  now apply firstLine_app.
Qed.

(** X16. Appending leaves the header where it was: when the fetched content
    has a complete first line (it holds a line feed) and that line gave the
    header, then whatever fragment is merged into the content, the header
    discovered in the merged text is the same. *)
Theorem header_is_stable_under_append :
  forall (p : Params) (currentCsv appendCsv : string) (h : list string),
    includes nl currentCsv = true ->
    discoverHeader p currentCsv = inr (Some h) ->
    discoverHeader p (mergeCsv currentCsv appendCsv) = inr (Some h).
Proof.
  intros p C A h Hnl Hd. unfold discoverHeader in *.
  destruct (headerGuard p C) eqn:Hg; [|discriminate].
  destruct (guard_and_first_line_after_merge p C A Hnl Hg) as [Hg' Hl].
  now rewrite Hg', Hl.
Qed.

Lemma header_is_stable_under_append_witness :
  discoverHeader defaultParams (mergeCsv ("a,b" ++ LF ++ "1,2") ("3,4" ++ LF)) =
    inr (Some ["a"; "b"]).
Proof.
  apply (header_is_stable_under_append defaultParams ("a,b" ++ LF ++ "1,2")
           ("3,4" ++ LF) ["a"; "b"]); reflexivity.
Defined.




(* ================================================================== *)
(** * The header line, written and read back *)

Section HeaderLine.

Variable d : Delimiter.

Lemma delimiter_not_special :
  CsvParse.isQuote (delimiterChar d) = false
  /\ Ascii.eqb (delimiterChar d) nl = false
  /\ Ascii.eqb (delimiterChar d) cr = false.
Proof. destruct d; repeat split. Qed.

Lemma quote_not_special :
  Ascii.eqb CsvParse.quote nl = false /\ Ascii.eqb CsvParse.quote cr = false
  /\ Ascii.eqb CsvParse.quote (delimiterChar d) = false.
Proof. destruct d; repeat split. Qed.

(** One iteration of the parser loop in each situation that a written
    header line produces. *)
Lemma step_plain (c : ascii) (rest acc : string) (wq : bool)
      (rec : list string) (recs : list (list string)) :
  Ascii.eqb c nl = false -> Ascii.eqb c cr = false ->
  CsvParse.isQuote c = false -> Ascii.eqb c (delimiterChar d) = false ->
  CsvParse.parseLoop d (CsvParse.mkState false wq false None acc rec recs)
                     (String c rest) =
  CsvParse.parseLoop d
    (CsvParse.mkState false wq false None (acc ++ String c EmptyString) rec recs) rest.
Proof.
  intros Hnl Hcr Hq Hd. cbn. rewrite Hcr, Hnl. cbn. rewrite Hq, Hd. reflexivity.
Qed.

Lemma step_delimiter (rest acc : string) (wq : bool)
      (rec : list string) (recs : list (list string)) :
  CsvParse.parseLoop d (CsvParse.mkState false wq false None acc rec recs)
                     (String (delimiterChar d) rest) =
  CsvParse.parseLoop d
    (CsvParse.mkState false false false None EmptyString (rec ++ [acc]) recs) rest.
Proof. destruct d; reflexivity. Qed.

Lemma step_open (rest : string) (rec : list string) (recs : list (list string)) :
  CsvParse.parseLoop d (CsvParse.mkState false false false None EmptyString rec recs)
                     (String CsvParse.quote rest) =
  CsvParse.parseLoop d
    (CsvParse.mkState true false false None EmptyString rec recs) rest.
Proof. reflexivity. Qed.

Lemma step_quoted_plain (c : ascii) (rest acc : string) (wq : bool)
      (rec : list string) (recs : list (list string)) :
  CsvParse.isQuote c = false ->
  CsvParse.parseLoop d (CsvParse.mkState true wq false None acc rec recs)
                     (String c rest) =
  CsvParse.parseLoop d
    (CsvParse.mkState true wq false None (acc ++ String c EmptyString) rec recs) rest.
Proof. intros Hq. cbn. rewrite Hq. reflexivity. Qed.

Lemma step_quoted_escaped (rest acc : string) (wq : bool)
      (rec : list string) (recs : list (list string)) :
  CsvParse.parseLoop d (CsvParse.mkState true wq false None acc rec recs)
                     (String CsvParse.quote (String CsvParse.quote rest)) =
  CsvParse.parseLoop d
    (CsvParse.mkState true wq false None (acc ++ String CsvParse.quote EmptyString)
                      rec recs) rest.
Proof. reflexivity. Qed.

Lemma step_close_at_end (acc : string) (wq : bool)
      (rec : list string) (recs : list (list string)) :
  CsvParse.parseLoop d (CsvParse.mkState true wq false None acc rec recs)
                     (String CsvParse.quote EmptyString) =
  CsvParse.parseLoop d (CsvParse.mkState false true false None acc rec recs)
                     EmptyString.
Proof. reflexivity. Qed.

Lemma step_close_before_delimiter (rest acc : string) (wq : bool)
      (rec : list string) (recs : list (list string)) :
  CsvParse.parseLoop d (CsvParse.mkState true wq false None acc rec recs)
                     (String CsvParse.quote (String (delimiterChar d) rest)) =
  CsvParse.parseLoop d (CsvParse.mkState false true false None acc rec recs)
                     (String (delimiterChar d) rest).
Proof. destruct d; reflexivity. Qed.

(** A run of plain characters, outside quotes. *)
Lemma parse_plain_run (s : string) :
  includes nl s = false -> includes cr s = false ->
  includes CsvParse.quote s = false -> includes (delimiterChar d) s = false ->
  forall rest acc wq rec recs,
    CsvParse.parseLoop d (CsvParse.mkState false wq false None acc rec recs)
                       (s ++ rest) =
    CsvParse.parseLoop d (CsvParse.mkState false wq false None (acc ++ s) rec recs)
                       rest.
Proof.
  induction s as [|c r IH]; intros Hnl Hcr Hq Hd rest acc wq rec recs.
  - now rewrite string_append_empty_r.
  - cbn [includes] in *.
    apply orb_false_iff in Hnl, Hcr, Hq, Hd.
    destruct Hnl as [Hnl Hnl'], Hcr as [Hcr Hcr'], Hq as [Hq Hq'], Hd as [Hd Hd'].
    cbn [append]. rewrite step_plain by assumption.
    rewrite IH by assumption. now rewrite string_append_assoc.
Qed.

(** The body of a quoted field, up to its closing quote. *)
Lemma parse_quoted_run (s : string) :
  forall rest acc wq rec recs,
    CsvParse.parseLoop d (CsvParse.mkState true wq false None acc rec recs)
                       (CsvStringify.escapeQuotes s ++ String CsvParse.quote rest) =
    CsvParse.parseLoop d (CsvParse.mkState true wq false None (acc ++ s) rec recs)
                       (String CsvParse.quote rest).
Proof.
  induction s as [|c r IH]; intros rest acc wq rec recs.
  - now rewrite string_append_empty_r.
  - cbn [CsvStringify.escapeQuotes].
    destruct (Ascii.eqb c CsvStringify.quote) eqn:E.
    + apply Ascii.eqb_eq in E. subst c. cbn [append].
      rewrite step_quoted_escaped, IH. now rewrite string_append_assoc.
    + cbn [append]. rewrite step_quoted_plain by exact E.
      rewrite IH. now rewrite string_append_assoc.
Qed.

Lemma escapeQuotes_without_quote (s : string) :
  includes CsvStringify.quote s = false -> CsvStringify.escapeQuotes s = s.
Proof.
  induction s as [|c r IH]; [reflexivity|]. cbn.
  destruct (Ascii.eqb c CsvStringify.quote); [discriminate|].
  cbn. intros H. now rewrite IH.
Qed.

(** One written field, followed by the end of the line or by a delimiter. *)
Lemma parse_field (f rest : string) (rec : list string) (recs : list (list string)) :
  singleLine f = true ->
  rest = EmptyString \/ (exists rest', rest = String (delimiterChar d) rest') ->
  exists wq,
    (f = EmptyString -> wq = false)
    /\ CsvParse.parseLoop d
         (CsvParse.mkState false false false None EmptyString rec recs)
         (CsvStringify.stringifyField d f ++ rest) =
       CsvParse.parseLoop d (CsvParse.mkState false wq false None f rec recs) rest.
Proof.
  intros Hsl Hrest. unfold singleLine in Hsl. apply andb_true_iff in Hsl.
  destruct Hsl as [Hnl Hcr]. apply negb_true_iff in Hnl, Hcr.
  destruct f as [|c r]; [exists false; split; reflexivity|].
  unfold CsvStringify.stringifyField.
  set (f := String c r) in *.
  destruct (includes CsvStringify.quote f) eqn:Hq.
  - exists true. split; [discriminate|]. cbn [orb].
    cbn [append]. rewrite step_open, string_append_assoc. cbn [append].
    rewrite parse_quoted_run.
    destruct Hrest as [-> | [rest' ->]].
    + now rewrite step_close_at_end.
    + now rewrite step_close_before_delimiter.
  - cbn [orb]. rewrite Hnl, orb_false_r.
    destruct (includes (delimiterChar d) f) eqn:Hd.
    + exists true. split; [discriminate|].
      cbn [append]. rewrite step_open, string_append_assoc. cbn [append].
      rewrite <- (escapeQuotes_without_quote f Hq) at 1.
      rewrite parse_quoted_run.
      destruct Hrest as [-> | [rest' ->]].
      * now rewrite step_close_at_end.
      * now rewrite step_close_before_delimiter.
    + exists false. split; [discriminate|].
      now rewrite parse_plain_run.
Qed.

Lemma stringifyRecord_cons (f g : string) (t : list string) :
  CsvStringify.stringifyRecord d (f :: g :: t) =
    CsvStringify.stringifyField d f
    ++ String (delimiterChar d) (CsvStringify.stringifyRecord d (g :: t)).
Proof. reflexivity. Qed.

(** A written record, read from the start of a field. *)
Lemma parse_written_record (h : list string) :
  forallb singleLine h = true ->
  h <> [] ->
  forall rec recs,
    rec <> [] \/ h <> [EmptyString] ->
    CsvParse.parseLoop d
      (CsvParse.mkState false false false None EmptyString rec recs)
      (CsvStringify.stringifyRecord d h) =
    inr (recs ++ [rec ++ h])%list.
Proof.
  induction h as [|f t IH]; [congruence|]. intros Hsl _ rec recs Hne.
  cbn [forallb] in Hsl. apply andb_true_iff in Hsl. destruct Hsl as [Hf Ht].
  destruct t as [|g t'].
  - cbn [CsvStringify.stringifyRecord].
    destruct (parse_field f EmptyString rec recs Hf (or_introl eq_refl))
      as (wq & Hwq & Hp).
    rewrite string_append_empty_r in Hp. rewrite Hp.
    cbn. destruct wq; [reflexivity|]. cbn.
    destruct rec as [|r0 rec']; [|reflexivity]. cbn.
    destruct f; [|reflexivity]. destruct Hne; congruence.
  - rewrite stringifyRecord_cons.
    destruct (parse_field f
                (String (delimiterChar d) (CsvStringify.stringifyRecord d (g :: t')))
                rec recs Hf (or_intror (ex_intro _ _ eq_refl)))
      as (wq & _ & Hp).
    rewrite Hp, step_delimiter.
    rewrite IH; [|exact Ht | discriminate | left; now destruct rec].
    now rewrite <- app_assoc.
Qed.

End HeaderLine.

(** X18. A row that [stringify] wrote is read back by [parse] as that very
    row, for each delimiter the node offers, provided no field holds a line
    feed or a carriage return and the row is neither empty nor a single
    empty field; these two rows are written as an empty line, which reads
    back as no record at all. *)
Theorem written_row_parses_back :
  forall (d : Delimiter) (h : list string),
    forallb singleLine h = true ->
    h <> [] ->
    h <> [EmptyString] ->
    CsvParse.parse (CsvStringify.stringifyRecord d h) d = inr [h].
Proof.
  intros d h Hsl Hne Hne'. unfold CsvParse.parse, CsvParse.initialState.
  now rewrite parse_written_record by auto.
Qed.

Lemma written_row_parses_back_witness :
  CsvParse.parse
    (CsvStringify.stringifyRecord Comma
       ["a,b"; EmptyString; String CsvStringify.quote "c"; " d "]) Comma =
    inr [["a,b"; EmptyString; String CsvStringify.quote "c"; " d "]].
Proof.
  apply (written_row_parses_back Comma
           ["a,b"; EmptyString; String CsvStringify.quote "c"; " d "]);
    [reflexivity | discriminate | discriminate].
Defined.

(** The two rows that do not come back. *)
Lemma empty_rows_do_not_parse_back (d : Delimiter) :
  CsvParse.parse (CsvStringify.stringifyRecord d []) d = inr []
  /\ CsvParse.parse (CsvStringify.stringifyRecord d [EmptyString]) d = inr [].
Proof. split; reflexivity. Qed.

Lemma includes_app (x : ascii) (a b : string) :
  includes x (a ++ b) = includes x a || includes x b.
Proof.
  induction a as [|c r IH]; [reflexivity|]. cbn. now rewrite IH, orb_assoc.
Qed.

Lemma includes_escapeQuotes (x : ascii) (s : string) :
  includes x (CsvStringify.escapeQuotes s) = includes x s.
Proof.
  induction s as [|c r IH]; [reflexivity|]. cbn [CsvStringify.escapeQuotes].
  destruct (Ascii.eqb c CsvStringify.quote) eqn:E; cbn [includes]; rewrite IH.
  - apply Ascii.eqb_eq in E. subst c. now destruct (Ascii.eqb CsvStringify.quote x).
  - reflexivity.
Qed.

Lemma includes_stringifyField (d : Delimiter) (x : ascii) (f : string) :
  Ascii.eqb CsvStringify.quote x = false ->
  includes x (CsvStringify.stringifyField d f) = includes x f.
Proof.
  intros Hx. destruct f as [|c r]; [reflexivity|].
  unfold CsvStringify.stringifyField. set (f := String c r).
  assert (Hv : includes x (if includes CsvStringify.quote f
                           then CsvStringify.escapeQuotes f else f) = includes x f)
    by (destruct (includes CsvStringify.quote f);
        [apply includes_escapeQuotes | reflexivity]).
  destruct (includes CsvStringify.quote f || includes (delimiterChar d) f
            || includes nl f); [|exact Hv].
  cbn [includes]. rewrite Hx, includes_app, Hv. cbn [includes]. rewrite Hx.
  now rewrite !orb_false_r.
Qed.

Lemma includes_stringifyRecord (d : Delimiter) (x : ascii) (h : list string) :
  Ascii.eqb CsvStringify.quote x = false ->
  Ascii.eqb (delimiterChar d) x = false ->
  forallb (fun f => negb (includes x f)) h = true ->
  includes x (CsvStringify.stringifyRecord d h) = false.
Proof.
  intros Hq Hd. induction h as [|f t IH]; [reflexivity|].
  cbn [forallb]. intros H. apply andb_true_iff in H. destruct H as [Hf Ht].
  apply negb_true_iff in Hf. destruct t as [|g t'].
  - cbn [CsvStringify.stringifyRecord]. now rewrite includes_stringifyField.
  - rewrite stringifyRecord_cons, includes_app, includes_stringifyField by assumption.
    cbn [includes]. rewrite Hf, Hd, IH by assumption. reflexivity.
Qed.

Lemma firstLine_of_terminated_line (s rest : string) :
  includes nl s = false -> includes cr s = false ->
  firstLine (s ++ String nl rest) = s.
Proof.
  induction s as [|c r IH]; [reflexivity|]. cbn [includes append firstLine].
  intros Hnl Hcr. apply orb_false_iff in Hnl, Hcr.
  destruct Hnl as [Hnl Hnl'], Hcr as [Hcr Hcr'].
  rewrite Hnl, Hcr. cbn [andb]. now rewrite IH.
Qed.

Lemma singleLine_split (h : list string) :
  forallb singleLine h = true ->
  forallb (fun f => negb (includes nl f)) h = true
  /\ forallb (fun f => negb (includes cr f)) h = true.
Proof.
  induction h as [|f t IH]; [auto|]. cbn [forallb]. intros H.
  apply andb_true_iff in H. destruct H as [Hf Ht].
  unfold singleLine in Hf. apply andb_true_iff in Hf. destruct Hf as [H1 H2].
  destruct (IH Ht) as [I1 I2]. now rewrite H1, H2, I1, I2.
Qed.

Lemma blank_escapeQuotes (s : string) :
  blank (CsvStringify.escapeQuotes s) = blank s.
Proof.
  unfold blank. induction s as [|c r IH]; [reflexivity|]. cbn.
  destruct (Ascii.eqb c CsvStringify.quote) eqn:E; cbn; rewrite IH.
  - apply Ascii.eqb_eq in E. subst c. reflexivity.
  - reflexivity.
Qed.

Lemma blank_stringifyField (d : Delimiter) (f : string) :
  blank f = false -> blank (CsvStringify.stringifyField d f) = false.
Proof.
  destruct f as [|c r]; [discriminate|]. intros Hb.
  unfold CsvStringify.stringifyField. set (f := String c r) in *.
  destruct (includes CsvStringify.quote f || includes (delimiterChar d) f
            || includes nl f); [reflexivity|].
  destruct (includes CsvStringify.quote f); [now rewrite blank_escapeQuotes | exact Hb].
Qed.

Lemma blank_stringifyRecord (d : Delimiter) (h : list string) :
  existsb (fun k => negb (blank k)) h = true ->
  blank (CsvStringify.stringifyRecord d h) = false.
Proof.
  induction h as [|f t IH]; [discriminate|]. cbn [existsb]. intros H.
  destruct t as [|g t'].
  - cbn [existsb] in H. rewrite orb_false_r in H. apply negb_true_iff in H.
    now apply blank_stringifyField.
  - rewrite stringifyRecord_cons, blank_app.
    destruct (blank f) eqn:Bf.
    + cbn [negb orb] in H. rewrite andb_comm.
      change (String (delimiterChar d) (CsvStringify.stringifyRecord d (g :: t')))
        with (String (delimiterChar d) EmptyString
              ++ CsvStringify.stringifyRecord d (g :: t')).
      rewrite blank_app, (IH H). now rewrite andb_false_r.
    + now rewrite (blank_stringifyField d f Bf).
Qed.

Lemma nonblank_key_shape (h : list string) :
  existsb (fun k => negb (blank k)) h = true -> h <> [] /\ h <> [EmptyString].
Proof.
  intros H. split; intros ->; discriminate.
Qed.

Lemma guard_and_first_line_of_written_header (p : Params) (h : list string)
      (rest : string) :
  hasHeader p = true ->
  forallb singleLine h = true ->
  existsb (fun k => negb (blank k)) h = true ->
  headerGuard p (CsvStringify.stringify (delimiter p) [h] ++ rest) = true
  /\ firstLine (CsvStringify.stringify (delimiter p) [h] ++ rest) =
       CsvStringify.stringifyRecord (delimiter p) h.
Proof.
  intros Hh Hsl Hnb.
  destruct (singleLine_split h Hsl) as [Hnl Hcr].
  cbn [CsvStringify.stringify]. rewrite string_append_assoc. cbn [append].
  split.
  - rewrite headerGuard_blank, Hh, blank_app, (blank_stringifyRecord _ h Hnb).
    reflexivity.
  - apply firstLine_of_terminated_line;
      (apply includes_stringifyRecord;
       [reflexivity | now destruct (delimiter p) | assumption]).
Qed.

(** X19. The header row that one invocation writes is the header the next
    invocation discovers: with [hasHeader] on, a content that starts with the
    written row [h] gives back [h], whatever follows, provided no name holds
    a line feed or carriage return and at least one name is not blank. *)
Theorem written_header_is_rediscovered :
  forall (p : Params) (h : list string) (rest : string),
    hasHeader p = true ->
    forallb singleLine h = true ->
    existsb (fun k => negb (blank k)) h = true ->
    discoverHeader p (CsvStringify.stringify (delimiter p) [h] ++ rest) = inr (Some h).
Proof.
  intros p h rest Hh Hsl Hnb.
  destruct (guard_and_first_line_of_written_header p h rest Hh Hsl Hnb) as [Hg Hl].
  destruct (nonblank_key_shape h Hnb) as [Hne Hne'].
  unfold discoverHeader. rewrite Hg, Hl.
  unfold CsvParse.parse, CsvParse.initialState.
  now rewrite parse_written_record by auto.
Qed.

Lemma written_header_is_rediscovered_witness :
  discoverHeader semicolonParams
    (CsvStringify.stringify Semicolon [["name"; "a;b"; EmptyString]]
     ++ "x;y;z" ++ LF) =
    inr (Some ["name"; "a;b"; EmptyString]).
Proof.
  apply (written_header_is_rediscovered semicolonParams
           ["name"; "a;b"; EmptyString] ("x;y;z" ++ LF)); reflexivity.
Defined.





(* ================================================================== *)
(** * The output records, fed to the node again *)

Lemma spreadSet_twice (obj : JsObject) (key : string) (v w : JsValue) :
  spreadSet (spreadSet obj key v) key w = spreadSet obj key w.
Proof.
  induction obj as [|[k u] rest IH]; cbn.
  - now rewrite String.eqb_refl.
  - destruct (String.eqb k key) eqn:E; cbn; rewrite E; [reflexivity | now rewrite IH].
Qed.

(** X21. Output records do not pile up paths: the output record of an
    output record is the output record of the original one, the path of the
    later invocation replacing that of the earlier; with the same path the
    record comes out as it went in. *)
Theorem output_of_output_is_output :
  forall (p q : Params) (it : Item),
    outputItem q (outputItem p it) = outputItem q it
    /\ outputItem p (outputItem p it) = outputItem p it.
Proof.
  intros p q it. unfold outputItem. cbn [json].
  now rewrite !spreadSet_twice.
Qed.

Lemma in_keys_spreadSet (obj : JsObject) (key : string) (v : JsValue) :
  In key (Object_keys (spreadSet obj key v)).
Proof.
  induction obj as [|[k u] rest IH]; cbn.
  - now left.
  - destruct (String.eqb k key) eqn:E; cbn.
    + left. now apply String.eqb_eq.
    + now right.
Qed.

(** X22. An output record carries the key [_ydisk], and its cell under that
    key is the text "[object Object]": when output records are themselves
    appended in mode byHeader with the header taken from them, the file gets
    a [_ydisk] column filled with that text. *)
Theorem output_record_ydisk_cell :
  forall (p : Params) (it : Item),
    In "_ydisk" (Object_keys (json (outputItem p it)))
    /\ cell (json (outputItem p it)) "_ydisk" = "[object Object]"
    /\ In "[object Object]"
          (buildRow (Object_keys (json (outputItem p it))) (json (outputItem p it))).
Proof.
  intros p it.
  assert (Hk : In "_ydisk" (Object_keys (json (outputItem p it))))
    by apply in_keys_spreadSet.
  assert (Hc : cell (json (outputItem p it)) "_ydisk" = "[object Object]").
  { unfold cell, get, outputItem. cbn [json].
    now rewrite getOwn_spreadSet_same. }
  split; [exact Hk | split; [exact Hc|]].
  unfold buildRow. apply in_map_iff. exists "_ydisk". now split.
Qed.
